(** * pyspark-style-guide: the pylint checkers and their metric functions

    A shallow embedding of [checkers/pylint_utils.py] and of the six checker
    classes ([function_call_checker.py], [statement_call_checker.py],
    [logic_op_complexity_checker.py], [select_alias_checker.py],
    [select_cast_checker.py], [chained_function_checker.py]), followed by
    the properties of the metric functions and of the rules.

    The code runs on astroid trees under Python 2: attribute lookups on a
    node of the wrong class raise [AttributeError], and messages added to
    the linter before an exception stay added. Both are kept here: the
    metric functions live in an error monad, the checker methods in a
    state-and-error monad over the checker's state. *)

From Stdlib Require Import ZArith List String Ascii Bool Lia DecimalString.
Import ListNotations.

Set Warnings "-register-all".
#[local] Open Scope Z_scope.
#[local] Open Scope string_scope.

(* ================================================================== *)
(** ** Python values and exceptions *)

(** The exceptions this code can raise on a tree. *)
Inductive exn : Type :=
| AttributeError   (* attribute lookup on an object that lacks it *)
| TypeError        (* iteration over an object that is not iterable *)
| IndexError.      (* pop from an empty list *)

Inductive result (A : Type) : Type :=
| Ok (a : A)
| Raise (e : exn).
Arguments Ok {A} a.
Arguments Raise {A} e.

Definition bind {A B : Type} (m : result A) (k : A -> result B) : result B :=
  match m with
  | Ok a => k a
  | Raise e => Raise e
  end.

Declare Scope result_scope.
Delimit Scope result_scope with result.
Notation "x <- m ;; k" := (bind m (fun x => k))
  (at level 61, m at next level, right associativity) : result_scope.
#[local] Open Scope result_scope.

(** The value a [Const] node holds. A text constant is a Python 2 [str],
    a string of bytes. A float is carried with the text [str] gives for
    it, the only thing the checkers ask of it. *)
Inductive const_value : Type :=
| CStr (s : string)
| CInt (i : Z)
| CBool (b : bool)
| CNone
| CFloat (text : string).

(** [str(value)] *)
Definition str (v : const_value) : string :=
  match v with
  | CStr s => s
  | CInt i => NilZero.string_of_int (Z.to_int i)
  | CBool true => "True"
  | CBool false => "False"
  | CNone => "None"
  | CFloat text => text
  end.

(** [len(s)] on a string *)
Definition len (s : string) : Z := Z.of_nat (String.length s).

(** The objects [isinstance(_, basestring)] is asked about. *)
Inductive pyobject : Type :=
| PyStr (s : string)
| PyConst (v : const_value).

(** [isinstance(o, basestring)]: true of a [str], and of a constant that
    holds one. *)
Definition isinstance_basestring (o : pyobject) : bool :=
  match o with
  | PyStr _ => true
  | PyConst (CStr _) => true
  | PyConst _ => false
  end.

(* ================================================================== *)
(** ** astroid nodes *)

Record position : Type := mkpos { lineno : Z; col_offset : Z }.

(** The node classes the checkers look at. [FunctionDef] keeps, of its
    [Arguments] object, the list [args.args]. *)
Inductive node : Type :=
| Const (pos : position) (value : const_value)
| Name (pos : position) (name : string)
| AssignName (pos : position) (name : string)
| BinOp (pos : position) (op : string) (left right : node)
| Call (pos : position) (func : node) (args : list node)
| Attribute (pos : position) (expr : node) (attrname : string)
| Assign (pos : position) (targets : list node) (value : node)
| Tuple (pos : position) (elts : list node)
| List (pos : position) (elts : list node)
| Compare (pos : position) (left : node) (ops : list (string * node))
| FunctionDef (pos : position) (name : string) (args_args : list node)
              (body : list node)
| Expr (pos : position) (value : node).

Definition node_pos (n : node) : position :=
  match n with
  | Const p _ | Name p _ | AssignName p _ | BinOp p _ _ _ | Call p _ _
  | Attribute p _ _ | Assign p _ _ | Tuple p _ | List p _ | Compare p _ _
  | FunctionDef p _ _ _ | Expr p _ => p
  end.

(** [node.lineno] *)
Definition node_lineno (n : node) : Z := lineno (node_pos n).

(** [isinstance(n, astroid.nodes.Call)] and its like. *)
Definition is_Call (n : node) : bool :=
  match n with Call _ _ _ => true | _ => false end.
Definition is_BinOp (n : node) : bool :=
  match n with BinOp _ _ _ _ => true | _ => false end.
Definition is_Assign (n : node) : bool :=
  match n with Assign _ _ _ => true | _ => false end.
Definition is_Expr (n : node) : bool :=
  match n with Expr _ _ => true | _ => false end.

(** [Const.pytype()]: the qualified name of the class of the value, a
    [str] whatever the value is. *)
Definition pytype (v : const_value) : pyobject :=
  PyStr match v with
        | CStr _ => "__builtin__.str"
        | CInt _ => "__builtin__.int"
        | CBool _ => "__builtin__.bool"
        | CNone => "__builtin__.NoneType"
        | CFloat _ => "__builtin__.float"
        end.

(** *** Attribute lookups that the code leaves unguarded *)

(** The name of the builtin class a constant is an instance of. *)
Definition class_name (v : const_value) : string :=
  match v with
  | CStr _ => "str"
  | CInt _ => "int"
  | CBool _ => "bool"
  | CNone => "NoneType"
  | CFloat _ => "float"
  end.

(** [n.name]: [Name], [AssignName] and [FunctionDef] have one of their
    own. A [Const], a [Tuple] and a [List] are, in astroid, instances of a
    builtin class, and an attribute they do not have themselves is looked
    up on that class: their [name] is the name of the class. The other
    nodes have none. *)
Definition getattr_name (n : node) : result string :=
  match n with
  | Name _ s | AssignName _ s | FunctionDef _ s _ _ => Ok s
  | Const _ v => Ok (class_name v)
  | Tuple _ _ => Ok "tuple"
  | List _ _ => Ok "list"
  | _ => Raise AttributeError
  end.

(** [n.attrname] *)
Definition getattr_attrname (n : node) : result string :=
  match n with
  | Attribute _ _ s => Ok s
  | _ => Raise AttributeError
  end.

(** [n.func] *)
Definition getattr_func (n : node) : result node :=
  match n with
  | Call _ f _ => Ok f
  | _ => Raise AttributeError
  end.

(** [n.value], for the lookups that go on with [.func] or [.args]: on an
    [Assign] or an [Expr] it is a node; on a [Const] it is a Python
    constant, which has neither attribute, so that the lookup that follows
    raises the same [AttributeError]. *)
Definition getattr_value (n : node) : result node :=
  match n with
  | Assign _ _ v | Expr _ v => Ok v
  | _ => Raise AttributeError
  end.

(** What [n.args] can be: a list of nodes ([Call]) or an [Arguments]
    object ([FunctionDef]), which has an [args] list but is not iterable. *)
Inductive args_attr : Type :=
| ArgList (l : list node)
| Arguments (args : list node).

Definition getattr_args (n : node) : result args_attr :=
  match n with
  | Call _ _ l => Ok (ArgList l)
  | FunctionDef _ _ l _ => Ok (Arguments l)
  | _ => Raise AttributeError
  end.

(** [for arg in a], as far as being iterable goes *)
Definition iter (a : args_attr) : result (list node) :=
  match a with
  | ArgList l => Ok l
  | Arguments _ => Raise TypeError
  end.

(** [n.elts] *)
Definition getattr_elts (n : node) : result (list node) :=
  match n with
  | Tuple _ l | List _ l => Ok l
  | _ => Raise AttributeError
  end.

(** [hasattr(n, a)] is "the lookup does not raise". *)
Definition hasattr {A : Type} (lookup : node -> result A) (n : node) : bool :=
  match lookup n with Ok _ => true | Raise _ => false end.

(* ================================================================== *)
(** ** checkers/pylint_utils.py *)

(** The shape [for x in xs: total += f(x)] of [compute_arguments_length],
    [compute_target_lengths] and of the loops inside [get_length]. *)
Definition sum_loop {A : Type} (f : A -> result Z) : list A -> Z -> result Z :=
  fix loop (xs : list A) (total : Z) : result Z :=
    match xs with
    | [] => Ok total
    | x :: rest => l <- f x ;; loop rest (total + l)
    end.

Fixpoint get_length (arg : node) : result Z :=
  match arg with
  | Const _ value =>
      let length := len (str value) in
      Ok (if isinstance_basestring (pytype value)
          then length + 2  (* Quotes *)
          else length)
  | BinOp _ _ left_ right_ =>
      let base_length := 3 in
      l <- get_length left_ ;;
      r <- get_length right_ ;;
      Ok (base_length + (l + r))
  | Call _ func args =>
      let base_length := 2 in
      f <- get_length func ;;
      a <- sum_loop get_length args 0 ;;
      Ok (f + a + base_length)
  | Attribute _ expr attrname =>
      let base_length := 1 in
      expr_length <-
        (if hasattr getattr_name expr
         then (s <- getattr_name expr ;; Ok (len s))
         else get_length expr) ;;
      Ok (expr_length + base_length + len attrname)
  | Assign _ targets value =>
      let base_length := 2 in
      target_length <- sum_loop get_length targets 0 ;;
      value_length <- get_length value ;;
      Ok (base_length + value_length + target_length)
  | Tuple _ elts =>
      args_length <- sum_loop (fun value => s <- getattr_name value ;; Ok (len s))
                              elts 0 ;;
      Ok (if Z.of_nat (List.length elts) >? 1
          then args_length + (Z.of_nat (List.length elts) - 1) * 2
          else args_length)
  | Name _ name => Ok (len name)
  | AssignName _ name => Ok (len name)
  | Compare _ left_ ops =>
      total_length <-
        sum_loop (fun op : string * node =>
                    l <- get_length (snd op) ;; Ok (2 + len (fst op) + l))
                 ops 0 ;;
      l <- get_length left_ ;;
      Ok (total_length + l)
  | List _ elts => sum_loop get_length elts 0
  | _ => Ok 0   (* print "Unhandled %s" % arg *)
  end.

Definition compute_arguments_length (arguments : list node) : result Z :=
  sum_loop get_length arguments 0.

Definition compute_target_lengths (targets : list node) : result Z :=
  sum_loop get_length targets 0.

(** The shape [for x in xs: if test(x): return True] followed by
    [return False], with a test that can raise. *)
Definition any_loop (test : node -> result bool) : list node -> result bool :=
  fix loop (xs : list node) : result bool :=
    match xs with
    | [] => Ok false
    | x :: rest => b <- test x ;; if b then Ok true else loop rest
    end.

Definition select_contains_alias_call (expression : node) : result bool :=
  value <- getattr_value expression ;;
  func <- getattr_func value ;;
  if negb (hasattr getattr_attrname func) then Ok false else
  attrname <- getattr_attrname func ;;
  if attrname =? "select" then
    args <- getattr_args value ;;
    args <- iter args ;;
    any_loop (fun arg =>
                if is_Call arg then
                  f <- getattr_func arg ;;
                  a <- getattr_attrname f ;;
                  Ok (a =? "alias")
                else Ok false) args
  else Ok false.

Definition select_contains_cast_call (expression : node) : result bool :=
  value <- getattr_value expression ;;
  func <- getattr_func value ;;
  if negb (hasattr getattr_attrname func) then Ok false else
  name <- getattr_name func ;;
  if name =? "select" then
    args <- getattr_args value ;;
    args <- iter args ;;
    any_loop (fun arg =>
                if is_Call arg then
                  f <- getattr_func arg ;;
                  a <- getattr_attrname f ;;
                  Ok (a =? "cast")
                else Ok false) args
  else Ok false.

(** [for arg in xs: if arg.lineno != line: return True] *)
Definition off_line (line : Z) (xs : list node) : bool :=
  existsb (fun arg => negb (node_lineno arg =? line)%Z) xs.

(** [is_line_split] returns [True], [False], or falls off its end and
    returns [None]: [Some true], [Some false], [None]. *)
Definition is_line_split (val : node) : result (option bool) :=
  let line := node_lineno val in
  match val with
  | FunctionDef _ _ args_args _ => Ok (Some (off_line line args_args))
  | Call _ _ args => Ok (Some (off_line line args))
  | Assign _ _ value =>
      in_args <-
        (if hasattr getattr_args value
         then (a <- getattr_args value ;; l <- iter a ;; Ok (off_line line l))
         else Ok false) ;;
      if in_args then Ok (Some true) else
      in_elts <-
        (if hasattr getattr_elts value
         then (l <- getattr_elts value ;; Ok (off_line line l))
         else Ok false) ;;
      if in_elts then Ok (Some true) else Ok (Some false)
  | _ => Ok None
  end.

(** Truth of a returned value in an [if]. *)
Definition truthy (o : option bool) : bool :=
  match o with Some b => b | None => false end.

Fixpoint get_binary_op_complexity (arg : node) : Z :=
  match arg with
  | BinOp _ _ left_ right_ =>
      let nested_complexity :=
        get_binary_op_complexity left_ + get_binary_op_complexity right_ in
      (* We need this Because essentially multiple ops are nested *)
      1 + (if nested_complexity >? 0 then nested_complexity else 1)
  | _ => 0
  end.

(* ================================================================== *)
(** ** checkers/chained_function_checker.py: the chain-depth metric *)

(** [hasattr(node, 'value')] holds of [Assign], [Expr] and [Const] (whose
    value is no node, hence no [Call]); [hasattr(node, 'expr')] of
    [Attribute]. A node with a [value] never reaches the [elif]. *)
Fixpoint get_num_of_first_level_functions (n : node) (counter : Z) : Z :=
  match n with
  | Assign _ _ curr_value | Expr _ curr_value =>
      match curr_value with
      | Call _ func _ => get_num_of_first_level_functions func (counter + 1)
      | _ => counter
      end
  | Const _ _ => counter
  | Attribute _ curr_value _ =>
      match curr_value with
      | Call _ func _ => get_num_of_first_level_functions func (counter + 1)
      | _ => counter
      end
  | _ => counter
  end.

(* ================================================================== *)
(** ** The checkers *)

(** A message handed to the linter: its symbol and the node it is
    anchored at. *)
Record message : Type := mkmsg { msg_id : string; msg_node : node }.

(** What a checker method can change: the messages the linter holds, and
    the checker's [_function_stack]. *)
Record checker_state : Type := mkstate {
  messages : list message;
  _function_stack : list (list node)
}.

(** A checker method: it may raise, and what it did before raising
    stays done. *)
Definition checker (A : Type) : Type := checker_state -> result A * checker_state.

Definition ret {A : Type} (a : A) : checker A := fun s => (Ok a, s).

Definition cbind {A B : Type} (m : checker A) (k : A -> checker B) : checker B :=
  fun s => match m s with
           | (Ok a, s') => k a s'
           | (Raise e, s') => (Raise e, s')
           end.

(** A metric computed inside a checker method. *)
Definition lift {A : Type} (r : result A) : checker A := fun s => (r, s).

Declare Scope checker_scope.
Delimit Scope checker_scope with checker.
Notation "x <- m ;; k" := (cbind m (fun x => k))
  (at level 61, m at next level, right associativity) : checker_scope.
Notation "m ;; k" := (cbind m (fun _ => k))
  (at level 61, right associativity) : checker_scope.

(** [self.add_message(symbol, node=node)] *)
Definition add_message (symbol : string) (n : node) : checker unit :=
  fun s => (Ok tt, mkstate (messages s ++ [mkmsg symbol n]) (_function_stack s)).

(** [self._function_stack.append([])] *)
Definition push_function : checker unit :=
  fun s => (Ok tt, mkstate (messages s) (_function_stack s ++ [[]])).

(** [self._function_stack.pop()] *)
Definition pop_function : checker unit :=
  fun s => match _function_stack s with
           | [] => (Raise IndexError, s)
           | stack => (Ok tt, mkstate (messages s) (removelast stack))
           end.

(** [for x in xs: body(x)] *)
Fixpoint for_each {A : Type} (body : A -> checker unit) (xs : list A) : checker unit :=
  match xs with
  | [] => ret tt
  | x :: rest => (body x ;; for_each body rest)%checker
  end.

(** [n.body], for the nodes [visit_functiondef] is handed: function
    definitions. *)
Definition getattr_body (n : node) : result (list node) :=
  match n with
  | FunctionDef _ _ _ b => Ok b
  | _ => Raise AttributeError
  end.

Module FunctionCallChecker.

(** The body of the loop of [visit_functiondef], for one [statement]
    of the body of the function [n]. *)
Definition visit_statement (n statement : node) : checker unit :=
  (if is_Expr statement then
     value <- lift (getattr_value statement) ;;
     split <- lift (is_line_split value) ;;
     if truthy split then
       args_length <- lift (a <- getattr_args value ;;
                            l <- iter a ;;
                            compute_arguments_length l)%result ;;
       name <- lift (f <- getattr_func value ;; getattr_name f)%result ;;
       let total_length :=
         (len name + col_offset (node_pos statement) + args_length)%Z in
       if (total_length <=? 120)%Z
       then add_message "unnecessarily-split-call" n
       else ret tt
     else ret tt
   else ret tt)%checker.

Definition visit_functiondef (n : node) : checker unit :=
  (body <- lift (getattr_body n) ;;
   for_each (visit_statement n) body ;;
   push_function)%checker.

Definition leave_functiondef (n : node) : checker unit := pop_function.

(** The walker calls [visit_<class>] on a node of that class, where the
    checker defines it. *)
Definition visit (n : node) : checker unit :=
  match n with
  | FunctionDef _ _ _ _ => visit_functiondef n
  | _ => ret tt
  end.

End FunctionCallChecker.

Module StatementCallChecker.

Definition visit_functiondef (n : node) : checker unit := push_function.

Definition visit_assign (n : node) : checker unit :=
  (split <- lift (is_line_split n) ;;
   if truthy split then
     let base_length := 3%Z in
     length <- lift (get_length n) ;;
     if (length + base_length <=? 120)%Z
     then add_message "unnecessarily-split-statement" n
     else ret tt
   else ret tt)%checker.

Definition leave_functiondef (n : node) : checker unit := pop_function.

Definition visit (n : node) : checker unit :=
  match n with
  | FunctionDef _ _ _ _ => visit_functiondef n
  | Assign _ _ _ => visit_assign n
  | _ => ret tt
  end.

End StatementCallChecker.

Module LogicOpComplexityChecker.

Definition visit_functiondef (n : node) : checker unit := push_function.

Definition visit_binop (n : node) : checker unit :=
  if (get_binary_op_complexity n >? 3)%Z
  then add_message "high-logic-op-complexity" n
  else ret tt.

Definition leave_functiondef (n : node) : checker unit := pop_function.

Definition visit (n : node) : checker unit :=
  match n with
  | FunctionDef _ _ _ _ => visit_functiondef n
  | BinOp _ _ _ _ => visit_binop n
  | _ => ret tt
  end.

End LogicOpComplexityChecker.

Module SelectAliasChecker.

Definition visit_functiondef (n : node) : checker unit := push_function.

Definition visit_expr (n : node) : checker unit :=
  (found <- lift (select_contains_alias_call n) ;;
   if found then add_message "select-contains-alias" n else ret tt)%checker.

Definition leave_functiondef (n : node) : checker unit := pop_function.

Definition visit (n : node) : checker unit :=
  match n with
  | FunctionDef _ _ _ _ => visit_functiondef n
  | Expr _ _ => visit_expr n
  | _ => ret tt
  end.

End SelectAliasChecker.

Module SelectCastChecker.

Definition visit_functiondef (n : node) : checker unit := push_function.

(** The module imports [select_contains_alias_call] and calls it here. *)
Definition visit_expr (n : node) : checker unit :=
  (found <- lift (select_contains_alias_call n) ;;
   if found then add_message "select-contains-cast" n else ret tt)%checker.

Definition leave_functiondef (n : node) : checker unit := pop_function.

Definition visit (n : node) : checker unit :=
  match n with
  | FunctionDef _ _ _ _ => visit_functiondef n
  | Expr _ _ => visit_expr n
  | _ => ret tt
  end.

End SelectCastChecker.

Module ChainedDotFunctionsSyntaxChecker.

Definition visit_assign (n : node) : checker unit :=
  let depth := get_num_of_first_level_functions n 0 in
  if (depth >? 3)%Z
  then add_message "chained-function-length" n
  else ret tt.

(** [visit_assign] is the only method of the class. *)
Definition visit (n : node) : checker unit :=
  match n with
  | Assign _ _ _ => visit_assign n
  | _ => ret tt
  end.

End ChainedDotFunctionsSyntaxChecker.

(** The state a pass starts from. *)
Definition initial : checker_state := mkstate [] [].

(** The messages a method adds when run from [s]. *)
Definition emitted {A : Type} (m : checker A) (s : checker_state) : list message :=
  skipn (List.length (messages s)) (messages (snd (m s))).

(* ================================================================== *)
(** ** Trees used in the statements below *)

(** Column 0 of a line. *)
Definition at_line (l : Z) : position := mkpos l 0.

(** One step of a method chain: [<previous>.method(call_args)]. *)
Record link : Type := mklink {
  call_pos : position;
  attr_pos : position;
  method : string;
  call_args : list node
}.

(** [base.m1(..).m2(..)...mk(..)], the last link outermost. *)
Definition chain (base : node) (links : list link) : node :=
  fold_left
    (fun previous l =>
       Call (call_pos l) (Attribute (attr_pos l) previous (method l)) (call_args l))
    links base.

(** [receiver.method(args)] on line [l] *)
Definition method_call (l : Z) (receiver : node) (m : string) (args : list node) : node :=
  Call (at_line l) (Attribute (at_line l) receiver m) args.

(** [df.select(col.alias("x"))] *)
Definition select_alias_stmt : node :=
  Expr (at_line 1)
    (method_call 1 (Name (at_line 1) "df") "select"
       [method_call 1 (Name (at_line 1) "col") "alias" [Const (at_line 1) (CStr "x")]]).

(** [df.select(col.cast("int"))] *)
Definition select_cast_stmt : node :=
  Expr (at_line 1)
    (method_call 1 (Name (at_line 1) "df") "select"
       [method_call 1 (Name (at_line 1) "col") "cast" [Const (at_line 1) (CStr "int")]]).

(** [df.select(col)] *)
Definition select_plain_stmt : node :=
  Expr (at_line 1)
    (method_call 1 (Name (at_line 1) "df") "select" [Name (at_line 1) "col"]).

(** [df.select(f(x))] *)
Definition select_name_call_stmt : node :=
  Expr (at_line 1)
    (method_call 1 (Name (at_line 1) "df") "select"
       [Call (at_line 1) (Name (at_line 1) "f") [Name (at_line 1) "x"]]).

(** [df.select(f(x), col.alias("y"))] *)
Definition select_name_call_then_alias_stmt : node :=
  Expr (at_line 1)
    (method_call 1 (Name (at_line 1) "df") "select"
       [Call (at_line 1) (Name (at_line 1) "f") [Name (at_line 1) "x"];
        method_call 1 (Name (at_line 1) "col") "alias" [Const (at_line 1) (CStr "y")]]).

(** An expression statement that wraps no call: [x] *)
Definition bare_name_stmt : node := Expr (at_line 1) (Name (at_line 1) "x").

(** [a.f1().f2().f3().f4()] and [a.f1().f2().f3()] *)
Definition no_arg (m : string) : link := mklink (at_line 1) (at_line 1) m [].
Definition chain4 : node :=
  chain (Name (at_line 1) "a") [no_arg "f1"; no_arg "f2"; no_arg "f3"; no_arg "f4"].
Definition chain3 : node :=
  chain (Name (at_line 1) "a") [no_arg "f1"; no_arg "f2"; no_arg "f3"].

(** [f(g(h(x)))] *)
Definition nested_args_call : node :=
  Call (at_line 1) (Name (at_line 1) "f")
    [Call (at_line 1) (Name (at_line 1) "g")
       [Call (at_line 1) (Name (at_line 1) "h") [Name (at_line 1) "x"]]].

(** A function whose body is two calls split over two lines,
<<
def run(df):
    df.select(a,
              b)
    f(a,
      b)
>>
    and the function with the second call alone. *)
Definition split_method_call : node :=
  Expr (mkpos 2 4)
    (Call (mkpos 2 4) (Attribute (mkpos 2 4) (Name (mkpos 2 4) "df") "select")
       [Name (mkpos 2 14) "a"; Name (mkpos 3 14) "b"]).
Definition split_name_call : node :=
  Expr (mkpos 4 4)
    (Call (mkpos 4 4) (Name (mkpos 4 4) "f")
       [Name (mkpos 4 6) "a"; Name (mkpos 5 6) "b"]).
Definition run_def : node :=
  FunctionDef (at_line 1) "run" [AssignName (mkpos 1 8) "df"]
    [split_method_call; split_name_call].
Definition run_def_name_only : node :=
  FunctionDef (at_line 1) "run" [AssignName (mkpos 1 8) "df"] [split_name_call].

(** [x = (1,] / [2)]: a tuple of two constants over two lines *)
Definition split_const_tuple_assign : node :=
  Assign (at_line 1) [AssignName (at_line 1) "x"]
    (Tuple (mkpos 1 5) [Const (mkpos 1 5) (CInt 1); Const (mkpos 2 5) (CInt 2)]).

(** [x = (f(a),] / [g(b))]: a tuple of two calls over two lines *)
Definition split_call_tuple_assign : node :=
  Assign (at_line 1) [AssignName (at_line 1) "x"]
    (Tuple (mkpos 1 5)
       [Call (mkpos 1 5) (Name (mkpos 1 5) "f") [Name (mkpos 1 7) "a"];
        Call (mkpos 2 5) (Name (mkpos 2 5) "g") [Name (mkpos 2 7) "b"]]).


(** [x = f(a,] / [b)] and the same on one line *)
Definition split_assign : node :=
  Assign (at_line 1) [AssignName (at_line 1) "x"]
    (Call (mkpos 1 4) (Name (mkpos 1 4) "f")
       [Name (mkpos 1 6) "a"; Name (mkpos 2 6) "b"]).

(** Simple-name elements, given by position and identifier. *)
Definition names (ids : list (position * string)) : list node :=
  map (fun i => Name (fst i) (snd i)) ids.

(** The sum of the identifier lengths. *)
Definition identifier_lengths (ids : list (position * string)) : Z :=
  fold_right (fun i total => len (snd i) + total) 0 ids.

Definition sumZ (l : list Z) : Z := fold_right Z.add 0 l.





(** Induction over nodes, with the children held in lists covered. *)
Section node_induction.
Variable P : node -> Prop.
Hypothesis HConst : forall p v, P (Const p v).
Hypothesis HName : forall p s, P (Name p s).
Hypothesis HAssignName : forall p s, P (AssignName p s).
Hypothesis HBinOp : forall p op l r, P l -> P r -> P (BinOp p op l r).
Hypothesis HCall : forall p f args, P f -> Forall P args -> P (Call p f args).
Hypothesis HAttribute : forall p e a, P e -> P (Attribute p e a).
Hypothesis HAssign :
  forall p targets v, Forall P targets -> P v -> P (Assign p targets v).
Hypothesis HTuple : forall p elts, Forall P elts -> P (Tuple p elts).
Hypothesis HList : forall p elts, Forall P elts -> P (List p elts).
Hypothesis HCompare :
  forall p l ops, P l -> Forall (fun op => P (snd op)) ops -> P (Compare p l ops).
Hypothesis HFunctionDef :
  forall p s args body, Forall P args -> Forall P body ->
                        P (FunctionDef p s args body).
Hypothesis HExpr : forall p v, P v -> P (Expr p v).

Fixpoint node_induction (n : node) : P n :=
  let all :=
    fix all (l : list node) : Forall P l :=
      match l with
      | [] => Forall_nil P
      | x :: rest => Forall_cons x (node_induction x) (all rest)
      end in
  match n with
  | Const p v => HConst p v
  | Name p s => HName p s
  | AssignName p s => HAssignName p s
  | BinOp p op l r => HBinOp p op l r (node_induction l) (node_induction r)
  | Call p f args => HCall p f args (node_induction f) (all args)
  | Attribute p e a => HAttribute p e a (node_induction e)
  | Assign p targets v => HAssign p targets v (all targets) (node_induction v)
  | Tuple p elts => HTuple p elts (all elts)
  | List p elts => HList p elts (all elts)
  | Compare p l ops =>
      HCompare p l ops (node_induction l)
        ((fix all_ops (o : list (string * node)) :
            Forall (fun op => P (snd op)) o :=
            match o with
            | [] => Forall_nil _
            | op :: rest =>
                Forall_cons op (node_induction (snd op)) (all_ops rest)
            end) ops)
  | FunctionDef p s args body => HFunctionDef p s args body (all args) (all body)
  | Expr p v => HExpr p v (node_induction v)
  end.
End node_induction.

(** The call rule as it reads, on one statement of a function body whose
    call has a simple name for callee: split, and
    [len(name) + col_offset + args_length <= 120]. *)
Definition earns_split_call (statement : node) : bool :=
  match statement with
  | Expr ps (Call pc (Name _ f) args) =>
      off_line (lineno pc) args
      && match compute_arguments_length args with
         | Ok args_length => (len f + col_offset ps + args_length <=? 120)%Z
         | Raise _ => false
         end
  | _ => false
  end.

(** An expression statement that calls a simple name on arguments whose
    length [get_length] can tell. *)
Definition name_call_statement (statement : node) : Prop :=
  exists ps pc pf f args args_length,
    statement = Expr ps (Call pc (Name pf f) args) /\
    compute_arguments_length args = Ok args_length.

(* ================================================================== *)
(** ** The checkers' own [is_line_split] *)

(** Five of the checker classes carry the same method
    [is_line_split(self, function)], which none of them calls: it reads
    [function.args.args], so it is written for function definitions. On a
    call, [function.args] is a list, which has no [args]. *)
Definition arguments_args (a : args_attr) : result (list node) :=
  match a with
  | Arguments l => Ok l
  | ArgList _ => Raise AttributeError
  end.

Definition is_line_split_method (function : node) : result bool :=
  let line := node_lineno function in
  a <- getattr_args function ;;
  l <- arguments_args a ;;
  Ok (off_line line l).

(* ================================================================== *)
(** ** Measures used in the statements below *)


(** The binary operators of an expression, counted through the operands
    of binary operators only. *)
Fixpoint count_operators (n : node) : Z :=
  match n with
  | BinOp _ _ l r => 1 + count_operators l + count_operators r
  | _ => 0
  end.

(** The binary operators neither operand of which is a binary operator. *)
Fixpoint count_innermost (n : node) : Z :=
  match n with
  | BinOp _ _ l r =>
      if negb (is_BinOp l) && negb (is_BinOp r) then 1
      else count_innermost l + count_innermost r
  | _ => 0
  end.

(** [((first op1 x1) op2 x2) ... opk xk] *)
Definition left_nested (first : node) (rest : list (position * string * node)) : node :=
  fold_left (fun acc step => BinOp (fst (fst step)) (snd (fst step)) acc (snd step))
            rest first.



(** An argument that is a call of the method [m]: [<receiver>.m(...)]. *)
Definition method_named (m : string) (arg : node) : bool :=
  match arg with
  | Call _ (Attribute _ _ a) _ => a =? m
  | _ => false
  end.

(** An argument the select tests can look at: not a call, or a call
    whose callee has an [attrname]. *)
Definition readable_argument (arg : node) : bool :=
  match arg with
  | Call _ f _ => hasattr getattr_attrname f
  | _ => true
  end.

(** A method that leaves the state alone (raising or not) or adds the one
    message [symbol] at [n] and returns. *)
Definition adds_at_most (symbol : string) (n : node) (m : checker unit) : Prop :=
  forall s : checker_state,
    (exists r, m s = (r, s)) \/
    m s = (Ok tt, mkstate (messages s ++ [mkmsg symbol n]) (_function_stack s)).

(** The same tree with every position sent through [g]. *)
Fixpoint relocate (g : position -> position) (n : node) : node :=
  match n with
  | Const p v => Const (g p) v
  | Name p s => Name (g p) s
  | AssignName p s => AssignName (g p) s
  | BinOp p op l r => BinOp (g p) op (relocate g l) (relocate g r)
  | Call p f args => Call (g p) (relocate g f) (map (relocate g) args)
  | Attribute p e a => Attribute (g p) (relocate g e) a
  | Assign p targets v =>
      Assign (g p) (map (relocate g) targets) (relocate g v)
  | Tuple p elts => Tuple (g p) (map (relocate g) elts)
  | List p elts => List (g p) (map (relocate g) elts)
  | Compare p l ops =>
      Compare (g p) (relocate g l)
              (map (fun op : string * node => (fst op, relocate g (snd op))) ops)
  | FunctionDef p s args body =>
      FunctionDef (g p) s (map (relocate g) args) (map (relocate g) body)
  | Expr p v => Expr (g p) (relocate g v)
  end.

(** Moving a position down by [d] lines and right by [c] columns. *)
Definition shift (d c : Z) (p : position) : position :=
  mkpos (lineno p + d) (col_offset p + c).

(* ================================================================== *)
(** * Properties *)

(** ** What a method emits *)

Lemma skipn_length_app {A : Type} (l l' : list A) :
  skipn (List.length l) (l ++ l') = l'.
Proof. induction l as [|x l IH]; simpl; auto. Qed.

Lemma emitted_add_message (symbol : string) (n : node) (s : checker_state) :
  emitted (add_message symbol n) s = [mkmsg symbol n].
Proof. unfold emitted, add_message; simpl. apply skipn_length_app. Qed.

Lemma emitted_ret {A : Type} (a : A) (s : checker_state) :
  emitted (ret a) s = [].
Proof. unfold emitted, ret; simpl. apply skipn_all. Qed.

Lemma emitted_raise {A B : Type} (e : exn) (k : A -> checker B) (s : checker_state) :
  emitted (cbind (lift (Raise e)) k) s = [].
Proof. unfold emitted, cbind, lift; simpl. apply skipn_all. Qed.

Lemma cbind_lift_ok {A B : Type} (a : A) (k : A -> checker B) (s : checker_state) :
  cbind (lift (Ok a)) k s = k a s.
Proof. reflexivity. Qed.

Lemma emitted_lift_ok {A B : Type} (a : A) (k : A -> checker B) (s : checker_state) :
  emitted (cbind (lift (Ok a)) k) s = emitted (k a) s.
Proof. reflexivity. Qed.

(** Reduce [emitted] of a method that has come down to a single step. *)
Ltac emits :=
  rewrite ?emitted_add_message, ?emitted_ret, ?emitted_raise; try reflexivity.

(** ** Binary-operator complexity *)

Lemma get_binary_op_complexity_BinOp (p : position) (op : string) (l r : node) :
  get_binary_op_complexity (BinOp p op l r) =
  1 + Z.max (get_binary_op_complexity l + get_binary_op_complexity r) 1.
Proof.
  cbn -[Z.gtb Z.add Z.max].
  destruct (Z.gtb_spec (get_binary_op_complexity l + get_binary_op_complexity r) 0);
    lia.
Qed.

Lemma get_binary_op_complexity_leaf (n : node) :
  is_BinOp n = false -> get_binary_op_complexity n = 0.
Proof. destruct n; simpl; congruence. Qed.

Lemma visit_binop_emitted (n : node) (s : checker_state) :
  emitted (LogicOpComplexityChecker.visit_binop n) s =
  if get_binary_op_complexity n >? 3
  then [mkmsg "high-logic-op-complexity" n] else [].
Proof.
  unfold LogicOpComplexityChecker.visit_binop.
  destruct (get_binary_op_complexity n >? 3); emits.
Qed.

(** C2. [get_binary_op_complexity] is 0 on every node that is not a
    [BinOp] and [1 + max(left + right, 1)] on a [BinOp]; a [BinOp] of two
    operands that are not [BinOp]s has complexity 2; three left-nested
    [BinOp]s have complexity 4, and [visit_binop] emits
    high-logic-op-complexity on them (it emits exactly when the complexity
    is above 3). *)
Theorem binary_op_complexity_rule :
  forall (a b c d : node) (p1 p2 p3 : position) (o1 o2 o3 : string)
         (s : checker_state),
    is_BinOp a = false -> is_BinOp b = false ->
    is_BinOp c = false -> is_BinOp d = false ->
    get_binary_op_complexity a = 0 /\
    (forall p op l r,
        get_binary_op_complexity (BinOp p op l r) =
        1 + Z.max (get_binary_op_complexity l + get_binary_op_complexity r) 1) /\
    get_binary_op_complexity (BinOp p1 o1 a b) = 2 /\
    (let nested := BinOp p3 o3 (BinOp p2 o2 (BinOp p1 o1 a b) c) d in
     get_binary_op_complexity nested = 4 /\
     emitted (LogicOpComplexityChecker.visit_binop nested) s =
     [mkmsg "high-logic-op-complexity" nested]) /\
    (forall n,
        emitted (LogicOpComplexityChecker.visit_binop n) s =
        if get_binary_op_complexity n >? 3
        then [mkmsg "high-logic-op-complexity" n] else []).
Proof.
  intros a b c d p1 p2 p3 o1 o2 o3 s Ha Hb Hc Hd.
  pose proof (get_binary_op_complexity_leaf a Ha) as Ea.
  pose proof (get_binary_op_complexity_leaf b Hb) as Eb.
  pose proof (get_binary_op_complexity_leaf c Hc) as Ec.
  pose proof (get_binary_op_complexity_leaf d Hd) as Ed.
  assert (E4 : get_binary_op_complexity
                 (BinOp p3 o3 (BinOp p2 o2 (BinOp p1 o1 a b) c) d) = 4).
  { rewrite !get_binary_op_complexity_BinOp, Ea, Eb, Ec, Ed. reflexivity. }
  repeat split.
  - exact Ea.
  - intros; apply get_binary_op_complexity_BinOp.
  - rewrite get_binary_op_complexity_BinOp, Ea, Eb. reflexivity.
  - exact E4.
  - rewrite visit_binop_emitted, E4. reflexivity.
  - intros n; apply visit_binop_emitted.
Qed.

Lemma binary_op_complexity_rule_witness :
  get_binary_op_complexity
    (BinOp (at_line 1) "+"
       (BinOp (at_line 1) "+"
          (BinOp (at_line 1) "+" (Name (at_line 1) "a") (Name (at_line 1) "b"))
          (Name (at_line 1) "c"))
       (Const (at_line 1) (CInt 1))) = 4.
Proof.
  destruct (binary_op_complexity_rule
              (Name (at_line 1) "a") (Name (at_line 1) "b") (Name (at_line 1) "c")
              (Const (at_line 1) (CInt 1))
              (at_line 1) (at_line 1) (at_line 1) "+" "+" "+" initial
              eq_refl eq_refl eq_refl eq_refl) as (_ & _ & _ & (H & _) & _).
  exact H.
Defined.

(** ** Chain depth *)

Lemma chain_snoc (base : node) (links : list link) (l : link) :
  chain base (links ++ [l]) =
  Call (call_pos l) (Attribute (attr_pos l) (chain base links) (method l))
       (call_args l).
Proof. unfold chain. rewrite fold_left_app. reflexivity. Qed.

Lemma depth_Attribute_Call (q pc : position) (f : node) (args : list node)
      (m : string) (c : Z) :
  get_num_of_first_level_functions (Attribute q (Call pc f args) m) c =
  get_num_of_first_level_functions f (c + 1).
Proof. reflexivity. Qed.

Lemma depth_Assign_Call (p pc : position) (targets : list node) (f : node)
      (args : list node) (c : Z) :
  get_num_of_first_level_functions (Assign p targets (Call pc f args)) c =
  get_num_of_first_level_functions f (c + 1).
Proof. reflexivity. Qed.

Lemma depth_Expr_Call (p pc : position) (f : node) (args : list node) (c : Z) :
  get_num_of_first_level_functions (Expr p (Call pc f args)) c =
  get_num_of_first_level_functions f (c + 1).
Proof. reflexivity. Qed.

Lemma is_Call_false_depth (n : node) (q : position) (m : string) (c : Z) :
  is_Call n = false ->
  get_num_of_first_level_functions (Attribute q n m) c = c.
Proof. destruct n; simpl; congruence. Qed.

(** Below the outermost call, the descent goes through the callee
    attributes and counts one per link. *)
Lemma depth_through_attribute (base : node) (links : list link) :
  is_Call base = false ->
  forall (q : position) (m : string) (c : Z),
    get_num_of_first_level_functions (Attribute q (chain base links) m) c =
    c + Z.of_nat (List.length links).
Proof.
  intros Hbase.
  induction links as [|l links IH] using rev_ind; intros q m c.
  - cbn [chain fold_left List.length].
    rewrite is_Call_false_depth by exact Hbase. lia.
  - rewrite chain_snoc, length_app, depth_Attribute_Call, IH, Nat2Z.inj_add.
    cbn [List.length]. lia.
Qed.

Lemma depth_of_chain_value (base : node) (links : list link) :
  is_Call base = false ->
  forall (p : position) (targets : list node),
    get_num_of_first_level_functions (Assign p targets (chain base links)) 0 =
    Z.of_nat (List.length links) /\
    get_num_of_first_level_functions (Expr p (chain base links)) 0 =
    Z.of_nat (List.length links).
Proof.
  intros Hbase p targets.
  destruct links as [|l links] using rev_ind.
  - cbn [chain fold_left List.length].
    destruct base; simpl in *; try congruence; auto.
  - clear IHlinks.
    rewrite chain_snoc, length_app, depth_Assign_Call, depth_Expr_Call.
    rewrite depth_through_attribute by exact Hbase.
    rewrite Nat2Z.inj_add. cbn [List.length]. lia.
Qed.

Lemma visit_assign_chained_emitted (n : node) (s : checker_state) :
  emitted (ChainedDotFunctionsSyntaxChecker.visit_assign n) s =
  if get_num_of_first_level_functions n 0 >? 3
  then [mkmsg "chained-function-length" n] else [].
Proof.
  unfold ChainedDotFunctionsSyntaxChecker.visit_assign.
  destruct (get_num_of_first_level_functions n 0 >? 3);
    emits.
Qed.

(** C3, as the code has it. For a value that is a chain of [k] method
    calls on a base that is not a call, [get_num_of_first_level_functions]
    is [k] on the assignment and on the expression statement alike, and 0
    when the value is a bare [Name] or [Const]. The diagnostic belongs to
    assignments only: on an [Assign] the checker emits
    chained-function-length exactly when the depth is above 3; on an
    expression statement it emits nothing, whatever the depth, since the
    class has no method for [Expr] nodes. *)
Theorem chain_depth_rule :
  forall (base : node) (links : list link) (p : position)
         (targets : list node) (s : checker_state),
    is_Call base = false ->
    let value := chain base links in
    let k := Z.of_nat (List.length links) in
    get_num_of_first_level_functions (Assign p targets value) 0 = k /\
    get_num_of_first_level_functions (Expr p value) 0 = k /\
    (forall q x, get_num_of_first_level_functions (Assign p targets (Name q x)) 0 = 0) /\
    (forall q v, get_num_of_first_level_functions (Assign p targets (Const q v)) 0 = 0) /\
    emitted (ChainedDotFunctionsSyntaxChecker.visit (Assign p targets value)) s =
      (if k >? 3
       then [mkmsg "chained-function-length" (Assign p targets value)]
       else []) /\
    emitted (ChainedDotFunctionsSyntaxChecker.visit (Expr p value)) s = [].
Proof.
  intros base links p targets s Hbase value k. subst value k.
  destruct (depth_of_chain_value base links Hbase p targets) as [HA HE].
  repeat split; auto.
  - cbn [ChainedDotFunctionsSyntaxChecker.visit].
    rewrite visit_assign_chained_emitted, HA. reflexivity.
  - cbn [ChainedDotFunctionsSyntaxChecker.visit]. emits.
Qed.

Lemma chain_depth_rule_witness :
  emitted (ChainedDotFunctionsSyntaxChecker.visit
             (Assign (at_line 1) [AssignName (at_line 1) "x"] chain4)) initial =
    [mkmsg "chained-function-length"
       (Assign (at_line 1) [AssignName (at_line 1) "x"] chain4)] /\
  emitted (ChainedDotFunctionsSyntaxChecker.visit
             (Assign (at_line 1) [AssignName (at_line 1) "x"] chain3)) initial = [].
Proof.
  split.
  - destruct (chain_depth_rule (Name (at_line 1) "a")
                [no_arg "f1"; no_arg "f2"; no_arg "f3"; no_arg "f4"]
                (at_line 1) [AssignName (at_line 1) "x"] initial eq_refl)
      as (_ & _ & _ & _ & H & _).
    exact H.
  - destruct (chain_depth_rule (Name (at_line 1) "a")
                [no_arg "f1"; no_arg "f2"; no_arg "f3"]
                (at_line 1) [AssignName (at_line 1) "x"] initial eq_refl)
      as (_ & _ & _ & _ & H & _).
    exact H.
Defined.

(** C3 as stated fails on expression statements: the statement
    [a.f1().f2().f3().f4()] has chain depth 4, above 3, and the checker
    emits nothing for it. *)
Lemma chain_depth_expr_statement_silent :
  get_num_of_first_level_functions (Expr (at_line 1) chain4) 0 = 4 /\
  (4 >? 3) = true /\
  emitted (ChainedDotFunctionsSyntaxChecker.visit (Expr (at_line 1) chain4))
          initial = [].
Proof. repeat split. Qed.

(** C10. An assignment whose value is a call of a simple name has chain
    depth 1 whatever its arguments hold, and the checker emits nothing for
    it; [x = f(g(h(x)))] is one such. *)
Theorem chain_depth_ignores_arguments :
  forall (p pc pf : position) (targets args : list node) (f : string)
         (s : checker_state),
    let a := Assign p targets (Call pc (Name pf f) args) in
    get_num_of_first_level_functions a 0 = 1 /\
    emitted (ChainedDotFunctionsSyntaxChecker.visit a) s = [] /\
    get_num_of_first_level_functions
      (Assign p targets nested_args_call) 0 = 1.
Proof.
  intros p pc pf targets args f s a. repeat split.
  subst a. cbn [ChainedDotFunctionsSyntaxChecker.visit].
  rewrite visit_assign_chained_emitted. reflexivity.
Qed.

(** ** Rendered length *)

Lemma get_length_Const (p : position) (v : const_value) :
  get_length (Const p v) = Ok (len (str v) + 2).
Proof. reflexivity. Qed.

(** C5, at the failing input. [get_length] adds the 2 of the quotes to
    every [Const]: the test is made on [pytype()], which is a [str] for
    every value. A text constant of length [n] gives [n + 2], as specified;
    the integer constant [5] gives 3, not 1, although the constant itself
    is no [basestring]. *)
Theorem get_length_const_quotes_always :
  (forall (p : position) (v : const_value),
      get_length (Const p v) = Ok (len (str v) + 2)) /\
  (forall (p : position) (text : string),
      get_length (Const p (CStr text)) = Ok (len text + 2)) /\
  len (str (CInt 5)) = 1 /\
  isinstance_basestring (PyConst (CInt 5)) = false /\
  get_length (Const (at_line 1) (CInt 5)) = Ok 3.
Proof. repeat split. Qed.

Lemma sum_loop_ok {A : Type} (f : A -> result Z) (xs : list A) (ls : list Z) :
  Forall2 (fun x l => f x = Ok l) xs ls ->
  forall total, sum_loop f xs total = Ok (total + sumZ ls).
Proof.
  induction 1 as [|x l xs ls Hx _ IH]; intros total; simpl.
  - f_equal; lia.
  - rewrite Hx. simpl. rewrite IH. f_equal; lia.
Qed.

Lemma names_lengths (ids : list (position * string)) :
  Forall2 (fun x l => get_length x = Ok l) (names ids)
          (map (fun i => len (snd i)) ids) /\
  Forall2 (fun x l => (s <- getattr_name x ;; Ok (len s)) = Ok l) (names ids)
          (map (fun i => len (snd i)) ids).
Proof.
  induction ids as [|i ids [IH1 IH2]]; simpl; split; constructor; auto.
Qed.

Lemma sumZ_identifier_lengths (ids : list (position * string)) :
  sumZ (map (fun i => len (snd i)) ids) = identifier_lengths ids.
Proof. induction ids as [|i ids IH]; simpl; [reflexivity|]. now rewrite IH. Qed.

(** C9. A [Tuple] of [n] simple names has the length of its identifiers
    plus [2 * (n - 1)] when [n > 1] and nothing more when [n <= 1]; a
    [List] has the sum of the lengths of its elements and no separators,
    so that the list of the same names is shorter by exactly the
    separators. *)
Theorem tuple_list_length :
  forall (p : position) (ids : list (position * string))
         (elts : list node) (lens : list Z),
    Forall2 (fun e l => get_length e = Ok l) elts lens ->
    let n := Z.of_nat (List.length ids) in
    get_length (Tuple p (names ids)) =
      Ok (identifier_lengths ids + (if n >? 1 then 2 * (n - 1) else 0)) /\
    get_length (List p elts) = Ok (sumZ lens) /\
    get_length (List p (names ids)) = Ok (identifier_lengths ids).
Proof.
  intros p ids elts lens Helts n.
  destruct (names_lengths ids) as [Hlen Hname].
  repeat split.
  - cbn [get_length].
    rewrite (sum_loop_ok _ _ _ Hname), sumZ_identifier_lengths.
    unfold names. rewrite length_map. fold n. cbn [bind].
    destruct (n >? 1); f_equal; lia.
  - cbn [get_length]. now rewrite (sum_loop_ok _ _ _ Helts).
  - cbn [get_length].
    now rewrite (sum_loop_ok _ _ _ Hlen), sumZ_identifier_lengths.
Qed.

Lemma tuple_list_length_witness :
  get_length (Tuple (at_line 1) (names [(at_line 1, "ab"); (at_line 1, "c")])) = Ok 5 /\
  get_length (List (at_line 1) [Const (at_line 1) (CStr "ab"); Name (at_line 1) "c"]) = Ok 5 /\
  get_length (List (at_line 1) (names [(at_line 1, "ab"); (at_line 1, "c")])) = Ok 3.
Proof.
  apply (tuple_list_length (at_line 1) [(at_line 1, "ab"); (at_line 1, "c")]
           [Const (at_line 1) (CStr "ab"); Name (at_line 1) "c"] [4; 1]).
  repeat constructor.
Defined.

(** ** Line splits and the statement rule *)





Lemma bind_ok_inv {A B : Type} (m : result A) (k : A -> result B) (b : B) :
  bind m k = Ok b -> exists a, m = Ok a /\ k a = Ok b.
Proof. destruct m as [a|e]; simpl; [eauto|discriminate]. Qed.







(** [x = f(a,] / [b)] is split and short: one message. *)
Example split_assign_flagged :
  emitted (StatementCallChecker.visit split_assign) initial =
  [mkmsg "unnecessarily-split-statement" split_assign].
Proof. reflexivity. Qed.

(** On [x = (1,] / [2)] each constant counts for the name of its class,
    [int]: the length is 11 and the statement is reported. *)
Example split_const_tuple_assign_flagged :
  get_length split_const_tuple_assign = Ok 11 /\
  emitted (StatementCallChecker.visit split_const_tuple_assign) initial =
  [mkmsg "unnecessarily-split-statement" split_const_tuple_assign].
Proof. split; reflexivity. Qed.

(** On [x = (f(a),] / [g(b))] the length of the tuple cannot be told, a
    call having no [name]: [get_length] raises, and the method with it,
    before any message. *)
Example split_call_tuple_assign_raises :
  StatementCallChecker.visit split_call_tuple_assign initial =
  (Raise AttributeError, initial).
Proof. reflexivity. Qed.

(** ** The select rules *)

Lemma visit_expr_cast_emitted (n : node) (s : checker_state) :
  emitted (SelectCastChecker.visit_expr n) s =
  match select_contains_alias_call n with
  | Ok true => [mkmsg "select-contains-cast" n]
  | _ => []
  end.
Proof.
  unfold SelectCastChecker.visit_expr.
  destruct (select_contains_alias_call n) as [[|]|e];
    try rewrite emitted_lift_ok; emits.
Qed.

Lemma visit_expr_alias_emitted (n : node) (s : checker_state) :
  emitted (SelectAliasChecker.visit_expr n) s =
  match select_contains_alias_call n with
  | Ok true => [mkmsg "select-contains-alias" n]
  | _ => []
  end.
Proof.
  unfold SelectAliasChecker.visit_expr.
  destruct (select_contains_alias_call n) as [[|]|e];
    try rewrite emitted_lift_ok; emits.
Qed.

(** C1, at the failing inputs. [SelectCastChecker.visit_expr] asks
    [select_contains_alias_call]: on every node it emits
    select-contains-cast where that test returns [True]. So
    [df.select(col.cast("int"))] gets no message and
    [df.select(col.alias("x"))] gets select-contains-cast (and, from the
    alias checker, select-contains-alias); [df.select(col)] gets neither.
    The cast test the module does not call, [select_contains_cast_call],
    raises on the cast statement. *)
Theorem select_cast_rule_tests_alias :
  (forall (n : node) (s : checker_state),
      emitted (SelectCastChecker.visit_expr n) s =
      match select_contains_alias_call n with
      | Ok true => [mkmsg "select-contains-cast" n]
      | _ => []
      end) /\
  emitted (SelectCastChecker.visit select_cast_stmt) initial = [] /\
  emitted (SelectCastChecker.visit select_alias_stmt) initial =
    [mkmsg "select-contains-cast" select_alias_stmt] /\
  emitted (SelectAliasChecker.visit select_alias_stmt) initial =
    [mkmsg "select-contains-alias" select_alias_stmt] /\
  emitted (SelectAliasChecker.visit select_cast_stmt) initial = [] /\
  emitted (SelectCastChecker.visit select_plain_stmt) initial = [] /\
  emitted (SelectAliasChecker.visit select_plain_stmt) initial = [] /\
  select_contains_cast_call select_cast_stmt = Raise AttributeError.
Proof.
  split; [exact visit_expr_cast_emitted|]. repeat split.
Qed.

(** A call whose callee has no [attrname] is "condition not met": this
    shape is guarded. *)
Lemma select_contains_alias_call_no_attrname
      (p pc : position) (f : node) (args : list node) :
  hasattr getattr_attrname f = false ->
  select_contains_alias_call (Expr p (Call pc f args)) = Ok false.
Proof.
  intros H. unfold select_contains_alias_call. cbn [getattr_value getattr_func bind].
  now rewrite H.
Qed.

(** C7, at the failing input. The callee of the statement is guarded by
    [hasattr], the callees of the arguments are not: on
    [df.select(f(x))] the test raises [AttributeError], and so do both
    [visit_expr] methods, which leave the exception to their caller. The
    same happens before an alias that follows in the argument list is
    seen, and on an expression statement that wraps no call. *)
Theorem select_rules_raise_on_name_callee :
  select_contains_alias_call select_name_call_stmt = Raise AttributeError /\
  SelectAliasChecker.visit select_name_call_stmt initial =
    (Raise AttributeError, initial) /\
  SelectCastChecker.visit select_name_call_stmt initial =
    (Raise AttributeError, initial) /\
  SelectAliasChecker.visit select_name_call_then_alias_stmt initial =
    (Raise AttributeError, initial) /\
  SelectAliasChecker.visit bare_name_stmt initial =
    (Raise AttributeError, initial) /\
  (forall (p pc pf : position) (f : string) (args : list node),
      select_contains_alias_call (Expr p (Call pc (Name pf f) args)) = Ok false).
Proof.
  repeat split.
Qed.

(** ** The call rule *)

(** On an expression statement that wraps a call of a simple name, with
    arguments whose length [get_length] can tell, the loop body does what
    the rule says: one message when the call is split and
    [len(name) + col_offset + args_length <= 120], none otherwise. *)
Lemma visit_statement_name_call
      (n : node) (ps pc pf : position) (f : string) (args : list node)
      (args_length : Z) (s : checker_state) :
  compute_arguments_length args = Ok args_length ->
  let statement := Expr ps (Call pc (Name pf f) args) in
  fst (FunctionCallChecker.visit_statement n statement s) = Ok tt /\
  emitted (FunctionCallChecker.visit_statement n statement) s =
    if off_line (lineno pc) args
       && (len f + col_offset ps + args_length <=? 120)%Z
    then [mkmsg "unnecessarily-split-call" n] else [].
Proof.
  intros Hlen statement. subst statement.
  unfold emitted, FunctionCallChecker.visit_statement, cbind, lift, ret, add_message.
  cbn -[off_line compute_arguments_length len Z.leb Z.add skipn].
  unfold node_lineno. cbn [node_pos].
  destruct (off_line (lineno pc) args);
    cbn -[compute_arguments_length len Z.leb Z.add skipn].
  - rewrite Hlen. cbn -[len Z.leb Z.add skipn].
    destruct (len f + col_offset ps + args_length <=? 120)%Z;
      split; try reflexivity; cbn [snd messages].
    + apply skipn_length_app.
    + apply skipn_all.
  - split; [reflexivity|apply skipn_all].
Qed.

(** The same with the state spelled out. *)
Lemma visit_statement_name_call_state (n statement : node) (s : checker_state) :
  name_call_statement statement ->
  FunctionCallChecker.visit_statement n statement s =
  (Ok tt,
   mkstate (messages s ++
            (if earns_split_call statement
             then [mkmsg "unnecessarily-split-call" n] else []))
           (_function_stack s)).
Proof.
  intros (ps & pc & pf & f & args & args_length & -> & Hlen).
  unfold FunctionCallChecker.visit_statement, cbind, lift, ret, add_message.
  cbn -[off_line compute_arguments_length len Z.leb Z.add].
  unfold node_lineno. cbn [node_pos]. rewrite Hlen.
  destruct (off_line (lineno pc) args);
    cbn -[compute_arguments_length len Z.leb Z.add].
  - destruct (len f + col_offset ps + args_length <=? 120)%Z; [reflexivity|].
    rewrite app_nil_r. now destruct s.
  - rewrite app_nil_r. now destruct s.
Qed.

Lemma for_each_name_calls (n : node) (statements : list node) :
  Forall name_call_statement statements ->
  forall s : checker_state,
    for_each (FunctionCallChecker.visit_statement n) statements s =
    (Ok tt,
     mkstate (messages s ++
              map (fun _ => mkmsg "unnecessarily-split-call" n)
                  (filter earns_split_call statements))
             (_function_stack s)).
Proof.
  induction 1 as [|st statements Hst _ IH]; intros s.
  - cbn [for_each filter map]. unfold ret. rewrite app_nil_r. now destruct s.
  - cbn [for_each filter]. unfold cbind at 1.
    rewrite (visit_statement_name_call_state n st s Hst), IH.
    cbn [messages _function_stack].
    destruct (earns_split_call st); cbn [map]; now rewrite <- app_assoc.
Qed.

(** Over a body of such statements [visit_functiondef] does not raise and
    adds one message, anchored at the function, for each statement the
    rule names, in the order of the body. *)
Lemma visit_functiondef_name_calls
      (p : position) (name : string) (args_args body : list node)
      (s : checker_state) :
  Forall name_call_statement body ->
  let n := FunctionDef p name args_args body in
  FunctionCallChecker.visit_functiondef n s =
  (Ok tt,
   mkstate (messages s ++
            map (fun _ => mkmsg "unnecessarily-split-call" n)
                (filter earns_split_call body))
           (_function_stack s ++ [[]])).
Proof.
  intros Hbody n.
  unfold FunctionCallChecker.visit_functiondef.
  cbn [getattr_body n]. rewrite cbind_lift_ok. fold n.
  unfold cbind at 1. rewrite (for_each_name_calls n body Hbody). reflexivity.
Qed.

(** C4, at the failing input. In [run_def] the first statement is the
    method call [df.select(a, b)] split over two lines: it is split, its
    arguments have length 2, and with either reading of its callee's name
    it fits in 120 columns. [visit_functiondef] reads [.name] of the
    callee, which an [Attribute] does not have: it raises
    [AttributeError] before any message, and the split call [f(a, b)]
    that follows, which alone earns the message, is never looked at. *)
Theorem call_split_rule_raises_on_method_call :
  is_line_split (Call (mkpos 2 4)
                   (Attribute (mkpos 2 4) (Name (mkpos 2 4) "df") "select")
                   [Name (mkpos 2 14) "a"; Name (mkpos 3 14) "b"]) = Ok (Some true) /\
  compute_arguments_length [Name (mkpos 2 14) "a"; Name (mkpos 3 14) "b"] = Ok 2 /\
  (len "df.select" + 4 + 2 <=? 120)%Z = true /\
  FunctionCallChecker.visit run_def initial = (Raise AttributeError, initial) /\
  emitted (FunctionCallChecker.visit run_def) initial = [] /\
  emitted (FunctionCallChecker.visit run_def_name_only) initial =
    [mkmsg "unnecessarily-split-call" run_def_name_only].
Proof. repeat split. Qed.

(** ** Totality of the metric functions *)

Lemma get_binary_op_complexity_nonneg (n : node) :
  0 <= get_binary_op_complexity n.
Proof.
  destruct n; try (simpl; lia).
  rewrite get_binary_op_complexity_BinOp. lia.
Qed.








(** [get_length] is not defined everywhere either: a tuple that holds a
    call, which has no [name], makes it raise; a tuple of constants does
    not, each constant answering with the name of its class. *)
Example get_length_tuple_elements :
  get_length (Tuple (at_line 1)
                [Call (at_line 1) (Name (at_line 1) "f") []]) =
    Raise AttributeError /\
  get_length (Tuple (at_line 1) [Const (at_line 1) (CInt 1)]) = Ok 3 /\
  get_length (Tuple (at_line 1)
                [Tuple (at_line 1) [Name (at_line 1) "a"; Name (at_line 1) "b"];
                 Name (at_line 1) "c"]) = Ok 8.
Proof. repeat split. Qed.


(* ================================================================== *)
(** * Further properties of the code *)

(** ** Rendered length: sign, parts, failures *)

Lemma Ok_inj {A : Type} (a b : A) : Ok a = Ok b -> a = b.
Proof. congruence. Qed.

Lemma len_nonneg (s : string) : 0 <= len s.
Proof. unfold len. lia. Qed.

(** The running total of a loop over non-negative lengths only grows,
    and covers each term. *)
Lemma sum_loop_grows {A : Type} (f : A -> result Z) (xs : list A) :
  Forall (fun x => forall l, f x = Ok l -> 0 <= l) xs ->
  forall total z,
    sum_loop f xs total = Ok z ->
    total <= z /\
    forall x, In x xs -> exists l, f x = Ok l /\ total + l <= z.
Proof.
  induction 1 as [|x xs Hx _ IH]; intros total z Hz; simpl in Hz.
  - apply Ok_inj in Hz as <-. split; [lia|]. intros x [].
  - apply bind_ok_inv in Hz as (l & Hl & Hz).
    specialize (Hx l Hl). destruct (IH _ _ Hz) as [Hle Hin].
    split; [lia|]. intros y [<-|Hy].
    + exists l. split; [assumption|lia].
    + destruct (Hin y Hy) as (ly & Hly & Hz'). exists ly. split; [assumption|lia].
Qed.

Lemma get_length_nonneg (n : node) :
  forall z, get_length n = Ok z -> 0 <= z.
Proof.
  induction n using node_induction; cbn [get_length]; intros z Hz.
  - (* Const *)
    change (Ok (len (str v) + 2) = Ok z) in Hz. apply Ok_inj in Hz as <-.
    pose proof (len_nonneg (str v)). lia.
  - apply Ok_inj in Hz as <-. apply len_nonneg.
  - apply Ok_inj in Hz as <-. apply len_nonneg.
  - (* BinOp *)
    apply bind_ok_inv in Hz as (l & Hl & Hz).
    apply bind_ok_inv in Hz as (r & Hr & Hz). apply Ok_inj in Hz as <-.
    specialize (IHn1 _ Hl). specialize (IHn2 _ Hr). lia.
  - (* Call *)
    apply bind_ok_inv in Hz as (f & Hf & Hz).
    apply bind_ok_inv in Hz as (a & Ha & Hz). apply Ok_inj in Hz as <-.
    specialize (IHn _ Hf).
    destruct (sum_loop_grows get_length args H 0 a Ha) as [Hle _]. lia.
  - (* Attribute *)
    apply bind_ok_inv in Hz as (e & He & Hz). apply Ok_inj in Hz as <-.
    pose proof (len_nonneg a).
    assert (0 <= e); [|lia].
    unfold hasattr in He. destruct (getattr_name n) as [s|x].
    + simpl in He. apply Ok_inj in He as <-. apply len_nonneg.
    + now apply IHn.
  - (* Assign *)
    apply bind_ok_inv in Hz as (t & Ht & Hz).
    apply bind_ok_inv in Hz as (v & Hv & Hz). apply Ok_inj in Hz as <-.
    specialize (IHn _ Hv).
    destruct (sum_loop_grows get_length targets H 0 t Ht) as [Hle _]. lia.
  - (* Tuple *)
    apply bind_ok_inv in Hz as (a & Ha & Hz). apply Ok_inj in Hz as <-.
    assert (Hnames : Forall (fun x => forall l,
                                 (s <- getattr_name x ;; Ok (len s)) = Ok l -> 0 <= l)
                            elts).
    { apply Forall_forall. intros x _ l Hl.
      apply bind_ok_inv in Hl as (s & _ & Hl). apply Ok_inj in Hl as <-. apply len_nonneg. }
    destruct (sum_loop_grows _ elts Hnames 0 a Ha) as [Hle _].
    destruct (Z.gtb_spec (Z.of_nat (List.length elts)) 1); lia.
  - (* List *)
    now destruct (sum_loop_grows get_length elts H 0 z Hz) as [Hle _].
  - (* Compare *)
    apply bind_ok_inv in Hz as (t & Ht & Hz).
    apply bind_ok_inv in Hz as (l & Hl & Hz). apply Ok_inj in Hz as <-.
    specialize (IHn _ Hl).
    assert (Hops : Forall (fun op : string * node => forall x,
                               (l <- get_length (snd op) ;;
                                Ok (2 + len (fst op) + l)) = Ok x -> 0 <= x) ops).
    { apply Forall_forall. intros op Hop x Hx.
      apply bind_ok_inv in Hx as (lo & Hlo & Hx). apply Ok_inj in Hx as <-.
      rewrite Forall_forall in H. specialize (H op Hop lo Hlo).
      pose proof (len_nonneg (fst op)). lia. }
    destruct (sum_loop_grows _ ops Hops 0 t Ht) as [Hle _]. lia.
  - apply Ok_inj in Hz as <-. lia.
  - apply Ok_inj in Hz as <-. lia.
Qed.

(** X1. Whatever [get_length] returns is non-negative, and so is what
    [compute_arguments_length] and [compute_target_lengths] return. *)
Theorem rendered_length_nonneg :
  forall (n : node) (xs : list node) (z : Z),
    (get_length n = Ok z -> 0 <= z) /\
    (compute_arguments_length xs = Ok z -> 0 <= z) /\
    (compute_target_lengths xs = Ok z -> 0 <= z).
Proof.
  intros n xs z.
  assert (Hxs : Forall (fun x => forall l, get_length x = Ok l -> 0 <= l) xs).
  { apply Forall_forall. intros x _. apply get_length_nonneg. }
  repeat split.
  - apply get_length_nonneg.
  - intros Hz. now destruct (sum_loop_grows get_length xs Hxs 0 z Hz).
  - intros Hz. now destruct (sum_loop_grows get_length xs Hxs 0 z Hz).
Qed.

Lemma rendered_length_nonneg_witness : 0 <= 8.
Proof.
  destruct (rendered_length_nonneg split_assign [] 8) as (H & _ & _).
  apply H. reflexivity.
Defined.

(** X2. A call is at least as long as its callee plus any one of its
    arguments plus the two brackets: where [get_length] of the call
    returns, it returns on the callee and on each argument too. *)
Theorem call_length_covers_parts :
  forall (p : position) (func : node) (args : list node) (arg : node) (z : Z),
    get_length (Call p func args) = Ok z ->
    In arg args ->
    exists zf za,
      get_length func = Ok zf /\ get_length arg = Ok za /\
      zf + za + 2 <= z.
Proof.
  intros p func args arg z Hz Hin. cbn [get_length] in Hz.
  apply bind_ok_inv in Hz as (f & Hf & Hz).
  apply bind_ok_inv in Hz as (a & Ha & Hz). apply Ok_inj in Hz as <-.
  assert (Hxs : Forall (fun x => forall l, get_length x = Ok l -> 0 <= l) args).
  { apply Forall_forall. intros x _. apply get_length_nonneg. }
  destruct (sum_loop_grows get_length args Hxs 0 a Ha) as [_ Hall].
  destruct (Hall arg Hin) as (za & Hza & Hle).
  exists f, za. repeat split; auto. lia.
Qed.

Lemma call_length_covers_parts_witness :
  exists zf za,
    get_length (Name (at_line 1) "f") = Ok zf /\
    get_length (Name (at_line 1) "x") = Ok za /\ zf + za + 2 <= 4.
Proof.
  apply (call_length_covers_parts (at_line 1) (Name (at_line 1) "f")
           [Name (at_line 1) "x"] (Name (at_line 1) "x") 4).
  - reflexivity.
  - left. reflexivity.
Defined.

(** What a loop has added so far can be added at the end instead. *)
Lemma sum_loop_from {A : Type} (f : A -> result Z) (xs : list A) :
  forall total,
    sum_loop f xs total = (z <- sum_loop f xs 0 ;; Ok (total + z)).
Proof.
  induction xs as [|x xs IH]; intros total; simpl.
  - f_equal; lia.
  - destruct (f x) as [l|e]; simpl; [|reflexivity].
    rewrite (IH (total + l)), (IH l).
    destruct (sum_loop f xs 0) as [z|e]; simpl; [f_equal; lia|reflexivity].
Qed.

Lemma sum_loop_app {A : Type} (f : A -> result Z) (xs ys : list A) :
  forall total,
    sum_loop f (xs ++ ys) total = (z <- sum_loop f xs total ;; sum_loop f ys z).
Proof.
  induction xs as [|x xs IH]; intros total; simpl; [reflexivity|].
  destruct (f x) as [l|e]; simpl; [apply IH|reflexivity].
Qed.

(** X3. The length of two argument lists put end to end is the sum of
    their lengths; an exception of the first list comes before one of the
    second, which is then never looked at. *)
Theorem compute_arguments_length_app :
  forall xs ys : list node,
    compute_arguments_length (xs ++ ys) =
    (x <- compute_arguments_length xs ;;
     y <- compute_arguments_length ys ;;
     Ok (x + y)).
Proof.
  intros xs ys. unfold compute_arguments_length.
  rewrite sum_loop_app.
  destruct (sum_loop get_length xs 0) as [x|e]; simpl; [|reflexivity].
  apply sum_loop_from.
Qed.






(** *** Failures *)

Lemma sum_loop_raise {A : Type} (f : A -> result Z) (xs : list A) (e : exn) :
  forall total,
    sum_loop f xs total = Raise e ->
    exists x, In x xs /\ f x = Raise e.
Proof.
  induction xs as [|x xs IH]; intros total H; simpl in H; [discriminate|].
  destruct (f x) as [l|e'] eqn:Hx; simpl in H.
  - destruct (IH _ H) as (y & Hy & Hfy). exists y. split; [now right|assumption].
  - exists x. split; [now left|congruence].
Qed.

Lemma bind_raise_inv {A B : Type} (m : result A) (k : A -> result B) (e : exn) :
  bind m k = Raise e -> m = Raise e \/ exists a, m = Ok a /\ k a = Raise e.
Proof. destruct m as [a|e']; simpl; [eauto|intros H; left; congruence]. Qed.

Lemma get_length_raises_AttributeError (n : node) :
  forall e, get_length n = Raise e -> e = AttributeError.
Proof.
  induction n using node_induction; cbn [get_length]; intros e He;
    try discriminate He.
  - (* BinOp *)
    apply bind_raise_inv in He as [He|(l & _ & He)]; [now apply IHn1|].
    apply bind_raise_inv in He as [He|(r & _ & He)]; [now apply IHn2|discriminate].
  - (* Call *)
    apply bind_raise_inv in He as [He|(f & _ & He)]; [now apply IHn|].
    apply bind_raise_inv in He as [He|(a & _ & He)]; [|discriminate].
    apply sum_loop_raise in He as (x & Hx & He).
    rewrite Forall_forall in H. exact (H x Hx e He).
  - (* Attribute *)
    apply bind_raise_inv in He as [He|(x & _ & He)]; [|discriminate].
    unfold hasattr in He. destruct (getattr_name n); [discriminate|now apply IHn].
  - (* Assign *)
    apply bind_raise_inv in He as [He|(t & _ & He)].
    + apply sum_loop_raise in He as (x & Hx & He).
      rewrite Forall_forall in H. exact (H x Hx e He).
    + apply bind_raise_inv in He as [He|(v & _ & He)]; [now apply IHn|discriminate].
  - (* Tuple *)
    apply bind_raise_inv in He as [He|(a & _ & He)]; [|discriminate].
    apply sum_loop_raise in He as (x & _ & He).
    destruct x; simpl in He; congruence.
  - (* List *)
    apply sum_loop_raise in He as (x & Hx & He).
    rewrite Forall_forall in H. exact (H x Hx e He).
  - (* Compare *)
    apply bind_raise_inv in He as [He|(t & _ & He)].
    + apply sum_loop_raise in He as (op & Hop & He).
      apply bind_raise_inv in He as [He|(l & _ & He)]; [|discriminate].
      rewrite Forall_forall in H. exact (H op Hop e He).
    + apply bind_raise_inv in He as [He|(l & _ & He)]; [now apply IHn|discriminate].
Qed.






(** X6. On a tuple [get_length] raises [AttributeError] exactly when
    some element has no [name], however many elements come before it.
    The elements without a [name] are the binary operations, calls,
    attributes, assignments, comparisons and expression statements;
    names, constants, tuples and lists have one. *)
Theorem tuple_length_raises_iff :
  forall (p : position) (elts : list node),
    (get_length (Tuple p elts) = Raise AttributeError <->
     exists x, In x elts /\ hasattr getattr_name x = false) /\
    (forall x : node,
        hasattr getattr_name x =
        match x with
        | BinOp _ _ _ _ | Call _ _ _ | Attribute _ _ _ | Assign _ _ _
        | Compare _ _ _ | Expr _ _ => false
        | _ => true
        end).
Proof.
  intros p elts. split; [|intros x; destruct x; reflexivity]. split.
  - intros He. cbn [get_length] in He.
    apply bind_raise_inv in He as [He|(a & _ & He)]; [|discriminate].
    apply sum_loop_raise in He as (x & Hx & He).
    exists x. split; [assumption|].
    unfold hasattr. destruct (getattr_name x); [discriminate|reflexivity].
  - intros (x & Hx & Hname).
    destruct (get_length (Tuple p elts)) as [z|e] eqn:Hz.
    + exfalso. cbn [get_length] in Hz.
      apply bind_ok_inv in Hz as (a & Ha & _).
      assert (Hall : Forall (fun y => forall l,
                                 (s <- getattr_name y ;; Ok (len s)) = Ok l -> 0 <= l)
                            elts).
      { apply Forall_forall. intros y _ l Hl.
        apply bind_ok_inv in Hl as (s & _ & Hl). apply Ok_inj in Hl as <-.
        apply len_nonneg. }
      destruct (sum_loop_grows _ elts Hall 0 a Ha) as [_ Hin].
      destruct (Hin x Hx) as (l & Hl & _).
      unfold hasattr in Hname. destruct (getattr_name x); discriminate.
    + f_equal. exact (get_length_raises_AttributeError _ e Hz).
Qed.

(** ** Binary-operator complexity: what it counts *)

Lemma get_binary_op_complexity_BinOp_min (n : node) :
  is_BinOp n = true -> 2 <= get_binary_op_complexity n.
Proof.
  destruct n; try discriminate. intros _.
  rewrite get_binary_op_complexity_BinOp. lia.
Qed.

Lemma count_operators_nonneg (n : node) : 0 <= count_operators n.
Proof. induction n using node_induction; cbn [count_operators]; lia. Qed.

(** X7. The complexity of an expression is the number of its binary
    operators plus the number of those neither operand of which is a
    binary operator: each operator counts once, and an innermost one
    twice. *)
Theorem complexity_counts_operators :
  forall n : node,
    get_binary_op_complexity n = count_operators n + count_innermost n.
Proof.
  induction n using node_induction; try reflexivity.
  rewrite get_binary_op_complexity_BinOp. cbn [count_operators count_innermost].
  destruct (is_BinOp n1) eqn:H1; destruct (is_BinOp n2) eqn:H2; cbn [negb andb].
  - pose proof (get_binary_op_complexity_BinOp_min n1 H1).
    pose proof (get_binary_op_complexity_BinOp_min n2 H2).
    pose proof (count_operators_nonneg n1). pose proof (count_operators_nonneg n2).
    lia.
  - pose proof (get_binary_op_complexity_BinOp_min n1 H1).
    pose proof (get_binary_op_complexity_nonneg n2).
    lia.
  - pose proof (get_binary_op_complexity_BinOp_min n2 H2).
    pose proof (get_binary_op_complexity_nonneg n1).
    lia.
  - pose proof (get_binary_op_complexity_leaf n1 H1).
    pose proof (get_binary_op_complexity_leaf n2 H2).
    assert (count_operators n1 = 0) by (destruct n1; try discriminate; reflexivity).
    assert (count_operators n2 = 0) by (destruct n2; try discriminate; reflexivity).
    lia.
Qed.

(** X8. Every binary operator is strictly more complex than each of its
    operands; so when [visit_binop] reports an operand that is a binary
    expression it reports the enclosing expression as well. *)
Theorem complexity_grows_outwards :
  forall (p : position) (op : string) (l r : node) (s s' : checker_state),
    get_binary_op_complexity l < get_binary_op_complexity (BinOp p op l r) /\
    get_binary_op_complexity r < get_binary_op_complexity (BinOp p op l r) /\
    (emitted (LogicOpComplexityChecker.visit_binop l) s <> [] \/
     emitted (LogicOpComplexityChecker.visit_binop r) s <> [] ->
     emitted (LogicOpComplexityChecker.visit_binop (BinOp p op l r)) s' =
     [mkmsg "high-logic-op-complexity" (BinOp p op l r)]).
Proof.
  intros p op l r s s'.
  pose proof (get_binary_op_complexity_nonneg l).
  pose proof (get_binary_op_complexity_nonneg r).
  pose proof (get_binary_op_complexity_BinOp p op l r) as E.
  split; [lia|]. split; [lia|]. intros Hop.
  rewrite !visit_binop_emitted in *.
  destruct (Z.gtb_spec (get_binary_op_complexity (BinOp p op l r)) 3);
    [reflexivity|].
  exfalso.
  destruct (Z.gtb_spec (get_binary_op_complexity l) 3);
    destruct (Z.gtb_spec (get_binary_op_complexity r) 3);
    try lia; destruct Hop as [Hop|Hop]; apply Hop; reflexivity.
Qed.

Lemma complexity_grows_outwards_witness :
  emitted (LogicOpComplexityChecker.visit_binop
             (BinOp (at_line 1) "*"
                (left_nested (Name (at_line 1) "a")
                   [(at_line 1, "+", Name (at_line 1) "b");
                    (at_line 1, "+", Name (at_line 1) "c");
                    (at_line 1, "+", Name (at_line 1) "d")])
                (Name (at_line 1) "e"))) initial <> [].
Proof.
  destruct (complexity_grows_outwards (at_line 1) "*"
              (left_nested (Name (at_line 1) "a")
                 [(at_line 1, "+", Name (at_line 1) "b");
                  (at_line 1, "+", Name (at_line 1) "c");
                  (at_line 1, "+", Name (at_line 1) "d")])
              (Name (at_line 1) "e") initial initial) as (_ & _ & H).
  rewrite H; [discriminate|]. left. discriminate.
Defined.

Lemma left_nested_snoc (first : node) (rest : list (position * string * node))
      (step : position * string * node) :
  left_nested first (rest ++ [step]) =
  BinOp (fst (fst step)) (snd (fst step)) (left_nested first rest) (snd step).
Proof. unfold left_nested. rewrite fold_left_app. reflexivity. Qed.

Lemma left_nested_complexity (first : node) (rest : list (position * string * node)) :
  is_BinOp first = false ->
  Forall (fun step => is_BinOp (snd step) = false) rest ->
  get_binary_op_complexity (left_nested first rest) =
  if (Z.of_nat (List.length rest) =? 0)%Z then 0 else Z.of_nat (List.length rest) + 1.
Proof.
  intros Hfirst.
  induction rest as [|step rest IH] using rev_ind; intros Hrest.
  - cbn [left_nested fold_left List.length]. now apply get_binary_op_complexity_leaf.
  - apply Forall_app in Hrest as [Hrest Hstep].
    apply Forall_inv in Hstep.
    rewrite left_nested_snoc, get_binary_op_complexity_BinOp, (IH Hrest).
    rewrite (get_binary_op_complexity_leaf _ Hstep), length_app.
    cbn [List.length].
    destruct (Z.eqb_spec (Z.of_nat (List.length rest)) 0);
      destruct (Z.eqb_spec (Z.of_nat (List.length rest + 1)) 0); lia.
Qed.

(** X9. A flat run of [k >= 1] operators, [x0 op1 x1 ... opk xk] with
    operands that are no binary expressions, has complexity [k + 1]:
    [visit_binop] reports it exactly from three operators on. *)
Theorem flat_run_complexity :
  forall (first : node) (rest : list (position * string * node))
         (s : checker_state),
    is_BinOp first = false ->
    Forall (fun step => is_BinOp (snd step) = false) rest ->
    rest <> [] ->
    let k := Z.of_nat (List.length rest) in
    let n := left_nested first rest in
    get_binary_op_complexity n = k + 1 /\
    emitted (LogicOpComplexityChecker.visit_binop n) s =
    if (k >=? 3)%Z then [mkmsg "high-logic-op-complexity" n] else [].
Proof.
  intros first rest s Hfirst Hrest Hne k n.
  assert (Hk : 0 < k).
  { subst k. destruct rest; [congruence|]. cbn [List.length]. lia. }
  assert (Hc : get_binary_op_complexity n = k + 1).
  { subst n. rewrite (left_nested_complexity first rest Hfirst Hrest). fold k.
    destruct (Z.eqb_spec k 0); lia. }
  split; [exact Hc|].
  rewrite visit_binop_emitted, Hc.
  destruct (Z.gtb_spec (k + 1) 3); destruct (Z.geb_spec k 3); try lia; reflexivity.
Qed.

Lemma flat_run_complexity_witness :
  get_binary_op_complexity
    (left_nested (Name (at_line 1) "a")
       [(at_line 1, "+", Name (at_line 1) "b");
        (at_line 1, "+", Name (at_line 1) "c")]) = 3.
Proof.
  destruct (flat_run_complexity (Name (at_line 1) "a")
              [(at_line 1, "+", Name (at_line 1) "b");
               (at_line 1, "+", Name (at_line 1) "c")] initial) as [H _].
  - reflexivity.
  - repeat constructor.
  - discriminate.
  - exact H.
Defined.

(** ** Chain depth: the counter and the base *)

(** The counter is carried along and added to. *)
Lemma depth_counter (n : node) :
  forall c, get_num_of_first_level_functions n c =
            c + get_num_of_first_level_functions n 0.
Proof.
  assert (H : (forall c, get_num_of_first_level_functions n c =
                         c + get_num_of_first_level_functions n 0) /\
              match n with
              | Call _ f _ =>
                  forall c, get_num_of_first_level_functions f c =
                            c + get_num_of_first_level_functions f 0
              | _ => True
              end).
  { induction n using node_induction;
      try (split; [intros c; cbn [get_num_of_first_level_functions]; lia|exact I]).
    - (* Call *)
      split; [intros c; cbn [get_num_of_first_level_functions]; lia|].
      apply IHn.
    - (* Attribute *)
      split; [|exact I]. destruct IHn as [_ Hn].
      destruct n; try (intros c; cbn [get_num_of_first_level_functions]; lia).
      intros c. rewrite !depth_Attribute_Call, (Hn (c + 1)), (Hn (0 + 1)). lia.
    - (* Assign *)
      split; [|exact I]. destruct IHn as [_ Hn].
      destruct n; try (intros c; cbn [get_num_of_first_level_functions]; lia).
      intros c. rewrite !depth_Assign_Call, (Hn (c + 1)), (Hn (0 + 1)). lia.
    - (* Expr *)
      split; [|exact I]. destruct IHn as [_ Hn].
      destruct n; try (intros c; cbn [get_num_of_first_level_functions]; lia).
      intros c. rewrite !depth_Expr_Call, (Hn (c + 1)), (Hn (0 + 1)). lia. }
  apply H.
Qed.

(** X10. The start value of the counter is only added to the result, and
    the depth counted from 0 is never negative: the checker's call with 0
    gives the number of calls met on the way down. *)
Theorem depth_counter_shift :
  forall (n : node) (c : Z),
    get_num_of_first_level_functions n c =
    c + get_num_of_first_level_functions n 0 /\
    0 <= get_num_of_first_level_functions n 0.
Proof.
  intros n c. split; [apply depth_counter|].
  assert (H : 0 <= get_num_of_first_level_functions n 0 /\
              match n with
              | Call _ f _ => 0 <= get_num_of_first_level_functions f 0
              | _ => True
              end).
  { induction n using node_induction;
      try (split; [cbn [get_num_of_first_level_functions]; lia|exact I]).
    - split; [cbn [get_num_of_first_level_functions]; lia|apply IHn].
    - split; [|exact I]. destruct IHn as [_ Hn].
      destruct n; try (cbn [get_num_of_first_level_functions]; lia).
      rewrite depth_Attribute_Call, depth_counter. lia.
    - split; [|exact I]. destruct IHn as [_ Hn].
      destruct n; try (cbn [get_num_of_first_level_functions]; lia).
      rewrite depth_Assign_Call, depth_counter. lia.
    - split; [|exact I]. destruct IHn as [_ Hn].
      destruct n; try (cbn [get_num_of_first_level_functions]; lia).
      rewrite depth_Expr_Call, depth_counter. lia. }
  apply H.
Qed.

(** What lies under an attribute, an assignment or an expression
    statement is looked at in the same way. *)
Lemma depth_under (base : node) (p q : position) (targets : list node)
      (m : string) (c : Z) :
  get_num_of_first_level_functions (Assign p targets base) c =
  get_num_of_first_level_functions (Attribute q base m) c /\
  get_num_of_first_level_functions (Expr p base) c =
  get_num_of_first_level_functions (Attribute q base m) c.
Proof. destruct base; split; reflexivity. Qed.

Lemma depth_chain_attribute (base : node) (links : list link) :
  forall (q : position) (m : string) (c : Z),
    get_num_of_first_level_functions (Attribute q (chain base links) m) c =
    Z.of_nat (List.length links) +
    get_num_of_first_level_functions (Attribute q base m) c.
Proof.
  induction links as [|l links IH] using rev_ind; intros q m c.
  - cbn [chain fold_left List.length]. lia.
  - rewrite chain_snoc, length_app, depth_Attribute_Call, IH, Nat2Z.inj_add.
    cbn [List.length].
    rewrite (depth_counter _ (c + 1)), (depth_counter _ c).
    assert (E : get_num_of_first_level_functions
                  (Attribute (attr_pos l) base (method l)) 0 =
                get_num_of_first_level_functions (Attribute q base m) 0).
    { destruct base; reflexivity. }
    rewrite E. lia.
Qed.

(** X11. Each method call chained onto a value adds exactly one to the
    depth of the statement, whatever the value is: the depth of
    [x = base.m1()...mk()] is [k] plus the depth of [x = base]. A chain
    that starts from the result of a function call, [f(..).m1()...mk()],
    therefore has depth [k + 1] and is reported from three methods on. *)
Theorem chain_depth_adds_links :
  forall (base : node) (links : list link) (p pc pf : position)
         (targets args : list node) (f : string) (s : checker_state),
    let k := Z.of_nat (List.length links) in
    get_num_of_first_level_functions (Assign p targets (chain base links)) 0 =
      k + get_num_of_first_level_functions (Assign p targets base) 0 /\
    get_num_of_first_level_functions (Expr p (chain base links)) 0 =
      k + get_num_of_first_level_functions (Expr p base) 0 /\
    (let a := Assign p targets (chain (Call pc (Name pf f) args) links) in
     get_num_of_first_level_functions a 0 = k + 1 /\
     emitted (ChainedDotFunctionsSyntaxChecker.visit_assign a) s =
     if (k >=? 3)%Z then [mkmsg "chained-function-length" a] else []).
Proof.
  intros base links p pc pf targets args f s k.
  assert (H : forall b,
             get_num_of_first_level_functions (Assign p targets (chain b links)) 0 =
             k + get_num_of_first_level_functions (Assign p targets b) 0 /\
             get_num_of_first_level_functions (Expr p (chain b links)) 0 =
             k + get_num_of_first_level_functions (Expr p b) 0).
  { intros b.
    destruct (depth_under (chain b links) p p targets "" 0) as [-> ->].
    destruct (depth_under b p p targets "" 0) as [-> ->].
    rewrite depth_chain_attribute. fold k. split; reflexivity. }
  split; [apply H|]. split; [apply H|].
  intros a.
  assert (Ha : get_num_of_first_level_functions a 0 = k + 1).
  { subst a. destruct (H (Call pc (Name pf f) args)) as [-> _]. reflexivity. }
  split; [exact Ha|].
  rewrite visit_assign_chained_emitted, Ha.
  destruct (Z.gtb_spec (k + 1) 3); destruct (Z.geb_spec k 3); try lia; reflexivity.
Qed.

(** ** Line splits: what is looked at *)

(** X12. The statement rule looks at the arguments of a call and at the
    elements of a tuple or list only: an assignment whose value has
    neither [args] nor [elts] (a name, a constant, a binary expression, a
    comparison, an attribute) is never reported, over however many lines
    it is written and however short it is. *)
Theorem statement_rule_ignores_other_values :
  forall (p : position) (targets : list node) (value : node) (s : checker_state),
    hasattr getattr_args value = false ->
    hasattr getattr_elts value = false ->
    is_line_split (Assign p targets value) = Ok (Some false) /\
    StatementCallChecker.visit (Assign p targets value) s = (Ok tt, s).
Proof.
  intros p targets value s Hargs Helts.
  assert (H : is_line_split (Assign p targets value) = Ok (Some false)).
  { cbn [is_line_split]. rewrite Hargs, Helts. reflexivity. }
  split; [exact H|].
  cbn [StatementCallChecker.visit]. unfold StatementCallChecker.visit_assign.
  rewrite H. reflexivity.
Qed.

Lemma statement_rule_ignores_other_values_witness :
  StatementCallChecker.visit
    (Assign (at_line 1) [AssignName (at_line 1) "x"]
       (BinOp (mkpos 1 4) "+" (Name (mkpos 1 4) "a") (Name (mkpos 2 4) "b")))
    initial = (Ok tt, initial).
Proof.
  apply (statement_rule_ignores_other_values (at_line 1)
           [AssignName (at_line 1) "x"]
           (BinOp (mkpos 1 4) "+" (Name (mkpos 1 4) "a") (Name (mkpos 2 4) "b"))
           initial); reflexivity.
Defined.

(** X13. The [is_line_split] method the checker classes carry agrees
    with [pylint_utils.is_line_split] on every function definition, and
    raises [AttributeError] on every other node, calls and assignments
    included, which the function of [pylint_utils] answers. *)
Theorem is_line_split_method_agrees_on_functions :
  forall n : node,
    match n with
    | FunctionDef _ _ _ _ =>
        exists b, is_line_split_method n = Ok b /\ is_line_split n = Ok (Some b)
    | _ => is_line_split_method n = Raise AttributeError
    end.
Proof. destruct n; try reflexivity. eexists; split; reflexivity. Qed.

(** ** The select tests *)

(** X14. [select_contains_cast_call] never returns [True]: it returns
    [False] when the callee of the statement has no [attrname], and
    raises otherwise (on the [name] it then reads, or earlier). *)
Theorem select_contains_cast_call_never_true :
  forall expression : node,
    select_contains_cast_call expression = Ok false \/
    select_contains_cast_call expression = Raise AttributeError.
Proof.
  intros expression. unfold select_contains_cast_call.
  destruct (getattr_value expression) as [value|e] eqn:Hv.
  - cbn [bind]. destruct (getattr_func value) as [func|e] eqn:Hf.
    + cbn [bind]. destruct func; cbn; auto.
    + right. cbn [bind]. destruct value; simpl in Hf; congruence.
  - right. cbn [bind]. destruct expression; simpl in Hv; congruence.
Qed.

(** The test the select rules run on each argument. *)
Lemma alias_test_readable (args : list node) :
  forallb readable_argument args = true ->
  any_loop (fun arg =>
              if is_Call arg then
                f <- getattr_func arg ;;
                a <- getattr_attrname f ;;
                Ok (a =? "alias")
              else Ok false) args =
  Ok (existsb (method_named "alias") args).
Proof.
  induction args as [|arg args IH]; cbn [forallb any_loop existsb]; [reflexivity|].
  intros H. apply andb_prop in H as [Harg Hargs].
  rewrite (IH Hargs).
  destruct arg as [| | | | pc f a | | | | | | |]; cbn; try reflexivity.
  destruct f; try discriminate Harg. cbn.
  destruct (attrname =? "alias"); reflexivity.
Qed.

(** X15. On a statement [<receiver>.m(...)] with [m] other than
    [select] the alias test answers [False] without looking at the
    arguments, so no shape of argument makes it raise; on a [select]
    whose arguments are all readable (no call of a plain name among
    them) it answers whether some argument is a call of [.alias]. *)
Theorem select_contains_alias_call_readable :
  forall (p pc pa : position) (receiver : node) (m : string) (args : list node),
    ((m =? "select") = false ->
     select_contains_alias_call
       (Expr p (Call pc (Attribute pa receiver m) args)) = Ok false) /\
    (forallb readable_argument args = true ->
     select_contains_alias_call
       (Expr p (Call pc (Attribute pa receiver "select") args)) =
     Ok (existsb (method_named "alias") args)).
Proof.
  intros p pc pa receiver m args. split.
  - intros Hm. unfold select_contains_alias_call.
    cbn [getattr_value getattr_func bind hasattr getattr_attrname negb].
    now rewrite Hm.
  - intros Hargs. unfold select_contains_alias_call.
    cbn [getattr_value getattr_func bind hasattr getattr_attrname negb
         getattr_args iter].
    change ("select" =? "select") with true. cbn iota.
    now apply alias_test_readable.
Qed.

Lemma select_contains_alias_call_readable_witness :
  select_contains_alias_call
    (Expr (at_line 1)
       (method_call 1 (Name (at_line 1) "df") "filter"
          [Call (at_line 1) (Name (at_line 1) "f") [Name (at_line 1) "x"]])) = Ok false /\
  select_contains_alias_call select_plain_stmt = Ok false.
Proof.
  split.
  - apply (select_contains_alias_call_readable (at_line 1) (at_line 1) (at_line 1)
             (Name (at_line 1) "df") "filter"
             [Call (at_line 1) (Name (at_line 1) "f") [Name (at_line 1) "x"]]).
    reflexivity.
  - apply (select_contains_alias_call_readable (at_line 1) (at_line 1) (at_line 1)
             (Name (at_line 1) "df") "select" [Name (at_line 1) "col"]).
    reflexivity.
Defined.

Lemma alias_test_early (pre post : list node) (arg : node) :
  forallb readable_argument pre = true ->
  method_named "alias" arg = true ->
  any_loop (fun arg =>
              if is_Call arg then
                f <- getattr_func arg ;;
                a <- getattr_attrname f ;;
                Ok (a =? "alias")
              else Ok false) (pre ++ arg :: post) = Ok true.
Proof.
  intros Hpre Harg.
  induction pre as [|x pre IH]; cbn [app any_loop].
  - destruct arg as [| | | | pc f a | | | | | | |]; try discriminate Harg.
    destruct f; try discriminate Harg. cbn in *. now rewrite Harg.
  - cbn [forallb] in Hpre. apply andb_prop in Hpre as [Hx Hpre].
    rewrite (IH Hpre).
    destruct x as [| | | | pc f a | | | | | | |]; cbn; try reflexivity.
    destruct f; try discriminate Hx. cbn.
    destruct (attrname =? "alias"); reflexivity.
Qed.

(** X16. The search stops at the first [.alias] call: when the arguments
    before it are readable the test answers [True] whatever follows, also
    an argument on which it would raise. Both select checkers then emit
    their message. *)
Theorem select_alias_found_first :
  forall (p pc pa : position) (receiver arg : node) (pre post : list node)
         (s : checker_state),
    forallb readable_argument pre = true ->
    method_named "alias" arg = true ->
    let statement :=
      Expr p (Call pc (Attribute pa receiver "select") (pre ++ arg :: post)) in
    select_contains_alias_call statement = Ok true /\
    emitted (SelectAliasChecker.visit statement) s =
      [mkmsg "select-contains-alias" statement] /\
    emitted (SelectCastChecker.visit statement) s =
      [mkmsg "select-contains-cast" statement].
Proof.
  intros p pc pa receiver arg pre post s Hpre Harg statement.
  assert (H : select_contains_alias_call statement = Ok true).
  { subst statement. unfold select_contains_alias_call.
    cbn [getattr_value getattr_func bind hasattr getattr_attrname negb
         getattr_args iter].
    change ("select" =? "select") with true. cbn iota.
    now apply alias_test_early. }
  split; [exact H|]. subst statement.
  cbn [SelectAliasChecker.visit SelectCastChecker.visit].
  rewrite visit_expr_alias_emitted, visit_expr_cast_emitted, H. split; reflexivity.
Qed.

Lemma select_alias_found_first_witness :
  select_contains_alias_call
    (Expr (at_line 1)
       (Call (at_line 1) (Attribute (at_line 1) (Name (at_line 1) "df") "select")
          ([Name (at_line 1) "a"]
           ++ method_call 1 (Name (at_line 1) "col") "alias" [Const (at_line 1) (CStr "y")]
           :: [Call (at_line 1) (Name (at_line 1) "f") [Name (at_line 1) "x"]])))
  = Ok true.
Proof.
  destruct (select_alias_found_first (at_line 1) (at_line 1) (at_line 1)
              (Name (at_line 1) "df")
              (method_call 1 (Name (at_line 1) "col") "alias"
                 [Const (at_line 1) (CStr "y")])
              [Name (at_line 1) "a"]
              [Call (at_line 1) (Name (at_line 1) "f") [Name (at_line 1) "x"]]
              initial eq_refl eq_refl) as [H _].
  exact H.
Defined.

(** ** The checkers and their state *)

Lemma state_eta (s : checker_state) :
  mkstate (messages s) (_function_stack s) = s.
Proof. now destruct s. Qed.

Lemma visit_statement_adds (n statement : node) :
  adds_at_most "unnecessarily-split-call" n
               (FunctionCallChecker.visit_statement n statement).
Proof.
  intros s. unfold FunctionCallChecker.visit_statement, cbind, lift, ret.
  destruct (is_Expr statement); [|eauto].
  destruct (getattr_value statement) as [value|e]; [|eauto].
  destruct (is_line_split value) as [split|e]; [|eauto].
  destruct (truthy split); [|eauto].
  destruct (a <- getattr_args value ;; l <- iter a ;; compute_arguments_length l)
    as [args_length|e]; [|eauto].
  destruct (f <- getattr_func value ;; getattr_name f) as [name|e]; [|eauto].
  destruct (len name + col_offset (node_pos statement) + args_length <=? 120)%Z;
    [right; reflexivity|eauto].
Qed.

(** A loop of such steps adds that message some number of times, at most
    once per step, and nothing else. *)
Lemma for_each_adds (symbol : string) (n : node) (body : node -> checker unit) :
  (forall x, adds_at_most symbol n (body x)) ->
  forall (xs : list node) (s : checker_state),
    exists (r : result unit) (k : nat),
      for_each body xs s =
      (r, mkstate (messages s ++ repeat (mkmsg symbol n) k) (_function_stack s)) /\
      (k <= List.length xs)%nat.
Proof.
  intros Hbody xs. induction xs as [|x xs IH]; intros s.
  - exists (Ok tt), 0%nat. cbn [for_each repeat List.length]. unfold ret.
    rewrite app_nil_r, state_eta. split; [reflexivity|lia].
  - cbn [for_each]. unfold cbind at 1.
    destruct (Hbody x s) as [[r Hr]|Hadd].
    + rewrite Hr. destruct r as [u|e].
      * destruct (IH s) as (r & k & Hk & Hle). exists r, k.
        split; [exact Hk|cbn [List.length]; lia].
      * exists (Raise e), 0%nat. cbn [repeat List.length].
        rewrite app_nil_r, state_eta. split; [reflexivity|lia].
    + rewrite Hadd.
      destruct (IH (mkstate (messages s ++ [mkmsg symbol n]) (_function_stack s)))
        as (r & k & Hk & Hle).
      exists r, (S k). rewrite Hk. cbn [messages _function_stack repeat List.length].
      rewrite <- app_assoc. split; [reflexivity|lia].
Qed.

(** X17. Whatever the body of the function holds, and whether or not it
    raises, [FunctionCallChecker.visit_functiondef] only appends copies
    of one message to the linter's list, unnecessarily-split-call
    anchored at the function itself, at most one for each statement of the
    body; it pushes onto its stack when it returns and leaves the stack
    alone when it raises. *)
Theorem visit_functiondef_appends_only :
  forall (p : position) (name : string) (args_args body : list node)
         (s : checker_state),
    let n := FunctionDef p name args_args body in
    exists (r : result unit) (k : nat),
      FunctionCallChecker.visit_functiondef n s =
      (r, mkstate (messages s ++ repeat (mkmsg "unnecessarily-split-call" n) k)
                  (match r with
                   | Ok _ => _function_stack s ++ [[]]
                   | Raise _ => _function_stack s
                   end)) /\
      (k <= List.length body)%nat.
Proof.
  intros p name args_args body s n.
  destruct (for_each_adds "unnecessarily-split-call" n
              (FunctionCallChecker.visit_statement n)
              (visit_statement_adds n) body s) as (r & k & Hk & Hle).
  exists r, k. split; [|exact Hle].
  unfold FunctionCallChecker.visit_functiondef.
  cbn [getattr_body n]. rewrite cbind_lift_ok. fold n.
  unfold cbind at 1. rewrite Hk. destruct r as [[]|e]; reflexivity.
Qed.

(** X18. A statement of the body that is no expression statement, or
    whose value [is_line_split] does not find split (an unsplit call,
    whatever its callee, or a value that is no call at all), is passed
    over: nothing is read from it that could raise, and the state is left
    as it was. *)
Theorem visit_statement_passes_over :
  forall (n statement : node) (s : checker_state),
    is_Expr statement = false \/
    (exists p value answer,
        statement = Expr p value /\
        is_line_split value = Ok answer /\ truthy answer = false) ->
    FunctionCallChecker.visit_statement n statement s = (Ok tt, s).
Proof.
  intros n statement s [H|(p & value & answer & -> & Hsplit & Hanswer)];
    unfold FunctionCallChecker.visit_statement.
  - now rewrite H.
  - cbn [is_Expr getattr_value]. rewrite cbind_lift_ok.
    unfold cbind, lift. rewrite Hsplit, Hanswer. reflexivity.
Qed.

Lemma visit_statement_passes_over_witness :
  FunctionCallChecker.visit_statement run_def select_plain_stmt initial =
  (Ok tt, initial).
Proof.
  apply visit_statement_passes_over. right.
  exists (at_line 1),
    (method_call 1 (Name (at_line 1) "df") "select" [Name (at_line 1) "col"]),
    (Some false).
  repeat split.
Defined.

(** X19. Messages added before an exception stay added: when the
    statements of a body up to one that raises are calls of simple names,
    [visit_functiondef] raises that exception with the messages of those
    statements in the list, and without pushing onto its stack; what
    follows the raising statement is not looked at. *)
Theorem visit_functiondef_raises_midway :
  forall (p : position) (name : string) (args_args good rest : list node)
         (bad : node) (e : exn) (s : checker_state),
    Forall name_call_statement good ->
    (forall m s', fst (FunctionCallChecker.visit_statement m bad s') = Raise e) ->
    let n := FunctionDef p name args_args (good ++ bad :: rest) in
    FunctionCallChecker.visit_functiondef n s =
    (Raise e,
     mkstate (messages s ++
              map (fun _ => mkmsg "unnecessarily-split-call" n)
                  (filter earns_split_call good))
             (_function_stack s)).
Proof.
  intros p name args_args good rest bad e s Hgood Hbad n.
  unfold FunctionCallChecker.visit_functiondef.
  cbn [getattr_body n]. rewrite cbind_lift_ok. fold n.
  assert (Hloop : forall xs s0,
             Forall name_call_statement xs ->
             for_each (FunctionCallChecker.visit_statement n) (xs ++ bad :: rest) s0 =
             (Raise e,
              mkstate (messages s0 ++
                       map (fun _ => mkmsg "unnecessarily-split-call" n)
                           (filter earns_split_call xs))
                      (_function_stack s0))).
  { intros xs s0 Hxs. revert s0.
    induction Hxs as [|x xs Hx _ IH]; intros s0.
    - cbn [app for_each filter map]. unfold cbind at 1.
      specialize (Hbad n s0).
      destruct (visit_statement_adds n bad s0) as [[r Hr]|Hadd].
      + rewrite Hr in *. cbn [fst] in Hbad. subst r.
        now rewrite app_nil_r, state_eta.
      + rewrite Hadd in Hbad. discriminate Hbad.
    - cbn [app for_each filter]. unfold cbind at 1.
      rewrite (visit_statement_name_call_state n x s0 Hx), IH.
      cbn [messages _function_stack].
      destruct (earns_split_call x); cbn [map]; now rewrite <- app_assoc. }
  unfold cbind at 1. rewrite (Hloop good s Hgood). reflexivity.
Qed.

Lemma visit_functiondef_raises_midway_witness :
  FunctionCallChecker.visit_functiondef
    (FunctionDef (at_line 1) "run" [] ([split_name_call] ++ split_method_call :: []))
    initial =
  (Raise AttributeError,
   mkstate [mkmsg "unnecessarily-split-call"
              (FunctionDef (at_line 1) "run" []
                 ([split_name_call] ++ split_method_call :: []))] []).
Proof.
  apply (visit_functiondef_raises_midway (at_line 1) "run" [] [split_name_call] []
           split_method_call AttributeError initial).
  - constructor; [|constructor].
    exists (mkpos 4 4), (mkpos 4 4), (mkpos 4 4), "f",
      [Name (mkpos 4 6) "a"; Name (mkpos 5 6) "b"], 2.
    split; reflexivity.
  - intros m s'. reflexivity.
Defined.

(** X20. Each method that visits one node adds at most one message, its
    own, anchored at the node it was handed; it leaves the messages that
    are there and the function stack as they were, also when it raises. *)
Theorem node_visits_add_at_most_one :
  forall n : node,
    adds_at_most "unnecessarily-split-statement" n (StatementCallChecker.visit_assign n) /\
    adds_at_most "high-logic-op-complexity" n (LogicOpComplexityChecker.visit_binop n) /\
    adds_at_most "select-contains-alias" n (SelectAliasChecker.visit_expr n) /\
    adds_at_most "select-contains-cast" n (SelectCastChecker.visit_expr n) /\
    adds_at_most "chained-function-length" n
                 (ChainedDotFunctionsSyntaxChecker.visit_assign n).
Proof.
  intros n. repeat split; intros s.
  - unfold StatementCallChecker.visit_assign, cbind, lift, ret.
    destruct (is_line_split n) as [split|e]; [|eauto].
    destruct (truthy split); [|eauto].
    destruct (get_length n) as [length|e]; [|eauto].
    destruct (length + 3 <=? 120)%Z; [right; reflexivity|eauto].
  - unfold LogicOpComplexityChecker.visit_binop, ret.
    destruct (get_binary_op_complexity n >? 3); [right; reflexivity|eauto].
  - unfold SelectAliasChecker.visit_expr, cbind, lift, ret.
    destruct (select_contains_alias_call n) as [[|]|e]; [right; reflexivity|eauto|eauto].
  - unfold SelectCastChecker.visit_expr, cbind, lift, ret.
    destruct (select_contains_alias_call n) as [[|]|e]; [right; reflexivity|eauto|eauto].
  - unfold ChainedDotFunctionsSyntaxChecker.visit_assign, ret.
    destruct (get_num_of_first_level_functions n 0 >? 3); [right; reflexivity|eauto].
Qed.

Lemma pop_after_push (s : checker_state) :
  cbind push_function (fun _ => pop_function) s = (Ok tt, s).
Proof.
  unfold cbind, push_function, pop_function. cbn [_function_stack messages].
  destruct (_function_stack s ++ [[]])%list eqn:E.
  - destruct (_function_stack s); discriminate E.
  - rewrite <- E, removelast_last. now rewrite state_eta.
Qed.

(** X21. Leaving a function undoes entering it: in the four checkers
    whose [visit_functiondef] only pushes, a visit followed by the leave
    gives the state back as it was; in [FunctionCallChecker] a visit that
    returns, followed by the leave, gives back the stack and keeps the
    messages of the visit. A leave with nothing on the stack raises
    [IndexError]. *)
Theorem leave_undoes_visit :
  forall (n : node) (s s1 : checker_state),
    cbind (StatementCallChecker.visit_functiondef n)
          (fun _ => StatementCallChecker.leave_functiondef n) s = (Ok tt, s) /\
    cbind (LogicOpComplexityChecker.visit_functiondef n)
          (fun _ => LogicOpComplexityChecker.leave_functiondef n) s = (Ok tt, s) /\
    cbind (SelectAliasChecker.visit_functiondef n)
          (fun _ => SelectAliasChecker.leave_functiondef n) s = (Ok tt, s) /\
    cbind (SelectCastChecker.visit_functiondef n)
          (fun _ => SelectCastChecker.leave_functiondef n) s = (Ok tt, s) /\
    (FunctionCallChecker.visit_functiondef n s = (Ok tt, s1) ->
     FunctionCallChecker.leave_functiondef n s1 =
     (Ok tt, mkstate (messages s1) (_function_stack s))) /\
    (_function_stack s = [] ->
     FunctionCallChecker.leave_functiondef n s = (Raise IndexError, s)).
Proof.
  intros n s s1.
  repeat (split; [apply pop_after_push|]).
  split.
  - intros Hvisit.
    destruct n as [| | | | | | | | | | p name a body |];
      try (unfold FunctionCallChecker.visit_functiondef in Hvisit;
           cbn in Hvisit; discriminate Hvisit).
    pose proof (for_each_adds "unnecessarily-split-call"
                  (FunctionDef p name a body)
                  (FunctionCallChecker.visit_statement (FunctionDef p name a body))
                  (visit_statement_adds _) body s) as (r & k & Hk & _).
    unfold FunctionCallChecker.visit_functiondef in Hvisit.
    cbn [getattr_body] in Hvisit. rewrite cbind_lift_ok in Hvisit.
    unfold cbind at 1 in Hvisit. rewrite Hk in Hvisit.
    destruct r as [u|e]; [|discriminate Hvisit].
    unfold push_function in Hvisit. cbn [messages _function_stack] in Hvisit.
    apply (f_equal snd) in Hvisit. cbn [snd] in Hvisit. subst s1.
    unfold FunctionCallChecker.leave_functiondef, pop_function.
    cbn [_function_stack messages].
    destruct (_function_stack s ++ [[]])%list eqn:E.
    + destruct (_function_stack s); discriminate E.
    + rewrite <- E, removelast_last. reflexivity.
  - intros Hempty.
    unfold FunctionCallChecker.leave_functiondef, pop_function.
    now rewrite Hempty.
Qed.

Lemma leave_undoes_visit_witness :
  FunctionCallChecker.leave_functiondef run_def_name_only
    (mkstate [mkmsg "unnecessarily-split-call" run_def_name_only] [[]]) =
  (Ok tt, mkstate [mkmsg "unnecessarily-split-call" run_def_name_only] []).
Proof.
  destruct (leave_undoes_visit run_def_name_only initial
              (mkstate [mkmsg "unnecessarily-split-call" run_def_name_only] [[]]))
    as (_ & _ & _ & _ & H & _).
  apply H. reflexivity.
Defined.

(** ** Positions *)

Lemma sum_loop_map_ext {A : Type} (f f' : A -> result Z) (h : A -> A) (xs : list A) :
  Forall (fun x => f (h x) = f' x) xs ->
  forall total, sum_loop f (map h xs) total = sum_loop f' xs total.
Proof.
  induction 1 as [|x xs Hx _ IH]; intros total; cbn [map sum_loop]; [reflexivity|].
  rewrite Hx. destruct (f' x); cbn [bind]; [apply IH|reflexivity].
Qed.

Lemma getattr_name_relocate (g : position -> position) (n : node) :
  getattr_name (relocate g n) = getattr_name n.
Proof. destruct n; reflexivity. Qed.

Lemma node_pos_relocate (g : position -> position) (n : node) :
  node_pos (relocate g n) = g (node_pos n).
Proof. destruct n; reflexivity. Qed.

Lemma get_length_relocate (g : position -> position) (n : node) :
  get_length (relocate g n) = get_length n.
Proof.
  induction n using node_induction; cbn [relocate get_length]; try reflexivity.
  - now rewrite IHn1, IHn2.
  - now rewrite IHn, (sum_loop_map_ext get_length get_length _ _ H).
  - unfold hasattr. now rewrite getattr_name_relocate, IHn.
  - now rewrite IHn, (sum_loop_map_ext get_length get_length _ _ H).
  - rewrite length_map.
    rewrite (sum_loop_map_ext
               (fun value => s <- getattr_name value ;; Ok (len s))
               (fun value => s <- getattr_name value ;; Ok (len s))
               (relocate g) elts); [reflexivity|].
    apply Forall_forall. intros x _. now rewrite getattr_name_relocate.
  - apply (sum_loop_map_ext get_length get_length _ _ H).
  - rewrite IHn.
    rewrite (sum_loop_map_ext
               (fun op : string * node =>
                  l <- get_length (snd op) ;; Ok (2 + len (fst op) + l))
               (fun op : string * node =>
                  l <- get_length (snd op) ;; Ok (2 + len (fst op) + l))
               (fun op : string * node => (fst op, relocate g (snd op))) ops);
      [reflexivity|].
    apply Forall_forall. intros op Hop. rewrite Forall_forall in H.
    cbn [fst snd]. now rewrite (H op Hop).
Qed.

Lemma get_binary_op_complexity_relocate (g : position -> position) (n : node) :
  get_binary_op_complexity (relocate g n) = get_binary_op_complexity n.
Proof.
  induction n using node_induction; cbn [relocate]; try reflexivity.
  now rewrite !get_binary_op_complexity_BinOp, IHn1, IHn2.
Qed.

Lemma depth_relocate (g : position -> position) (n : node) :
  forall c, get_num_of_first_level_functions (relocate g n) c =
            get_num_of_first_level_functions n c.
Proof.
  assert (H : (forall c, get_num_of_first_level_functions (relocate g n) c =
                         get_num_of_first_level_functions n c) /\
              match n with
              | Call _ f _ =>
                  forall c, get_num_of_first_level_functions (relocate g f) c =
                            get_num_of_first_level_functions f c
              | _ => True
              end).
  { induction n using node_induction;
      try (split; [intros c; reflexivity|exact I]).
    - split; [intros c; reflexivity|apply IHn].
    - split; [|exact I]. destruct IHn as [_ Hn].
      destruct n; try (intros c; reflexivity).
      intros c. cbn [relocate]. rewrite !depth_Attribute_Call. apply Hn.
    - split; [|exact I]. destruct IHn as [_ Hn].
      destruct n; try (intros c; reflexivity).
      intros c. cbn [relocate]. rewrite !depth_Assign_Call. apply Hn.
    - split; [|exact I]. destruct IHn as [_ Hn].
      destruct n; try (intros c; reflexivity).
      intros c. cbn [relocate]. rewrite !depth_Expr_Call. apply Hn. }
  apply H.
Qed.

(** X22. The rendered length, the operator complexity and the chain depth
    of a tree do not depend on any line or column in it: the same code at
    other positions, or laid out over other lines, measures the same (and
    fails the same). *)
Theorem metrics_ignore_positions :
  forall (g : position -> position) (n : node) (c : Z),
    get_length (relocate g n) = get_length n /\
    get_binary_op_complexity (relocate g n) = get_binary_op_complexity n /\
    get_num_of_first_level_functions (relocate g n) c =
    get_num_of_first_level_functions n c.
Proof.
  intros g n c. split; [apply get_length_relocate|].
  split; [apply get_binary_op_complexity_relocate|apply depth_relocate].
Qed.

Lemma off_line_relocate (g : position -> position) (p : position) (xs : list node) :
  (forall a b, lineno (g a) = lineno (g b) <-> lineno a = lineno b) ->
  off_line (lineno (g p)) (map (relocate g) xs) = off_line (lineno p) xs.
Proof.
  intros Hg. unfold off_line.
  induction xs as [|x xs IH]; cbn [map existsb]; [reflexivity|].
  rewrite IH. f_equal. f_equal.
  unfold node_lineno. rewrite node_pos_relocate.
  destruct (Z.eqb_spec (lineno (g (node_pos x))) (lineno (g p))) as [E|E];
    destruct (Z.eqb_spec (lineno (node_pos x)) (lineno p)) as [E'|E'];
    try reflexivity; exfalso.
  - apply E'. now apply Hg.
  - apply E. now apply Hg.
Qed.

(** X23. [is_line_split] compares line numbers for equality and nothing
    else: it gives the same answer after any change of positions that
    keeps equal lines equal and different lines different, such as
    moving the whole node down by some lines or changing columns. *)
Theorem is_line_split_relocate :
  forall (g : position -> position) (n : node),
    (forall a b, lineno (g a) = lineno (g b) <-> lineno a = lineno b) ->
    is_line_split (relocate g n) = is_line_split n.
Proof.
  intros g n Hg.
  destruct n as [| | | | p f a | | p t v | | | | p s a b |];
    cbn [relocate is_line_split]; try reflexivity.
  - unfold node_lineno. cbn [node_pos]. now rewrite off_line_relocate.
  - unfold node_lineno. cbn [node_pos].
    destruct v; cbn [relocate hasattr getattr_args getattr_elts iter bind];
      rewrite ?off_line_relocate by exact Hg; reflexivity.
  - unfold node_lineno. cbn [node_pos]. now rewrite off_line_relocate.
Qed.

Lemma is_line_split_relocate_witness :
  is_line_split (relocate (shift 10 4) split_assign) = Ok (Some true).
Proof.
  rewrite (is_line_split_relocate (shift 10 4) split_assign).
  - reflexivity.
  - intros a b. unfold shift. cbn [lineno]. lia.
Defined.

(** ** The rules where they apply *)

(** X24. Over a body made of calls of simple names (arguments of known
    length) [FunctionCallChecker] does not raise: it adds one
    unnecessarily-split-call, anchored at the function, for each call
    that is split and for which [len(name) + col_offset + args_length]
    is within 120, in the order of the body, and nothing for the
    others. *)
Theorem call_rule_on_name_calls :
  forall (p : position) (name : string) (args_args body : list node)
         (s : checker_state),
    Forall name_call_statement body ->
    let n := FunctionDef p name args_args body in
    fst (FunctionCallChecker.visit n s) = Ok tt /\
    emitted (FunctionCallChecker.visit n) s =
    map (fun _ => mkmsg "unnecessarily-split-call" n)
        (filter earns_split_call body).
Proof.
  intros p name args_args body s Hbody n.
  unfold emitted. subst n. cbn [FunctionCallChecker.visit].
  rewrite (visit_functiondef_name_calls p name args_args body s Hbody).
  cbn [fst snd messages]. split; [reflexivity|apply skipn_length_app].
Qed.

Lemma call_rule_on_name_calls_witness :
  emitted (FunctionCallChecker.visit run_def_name_only) initial =
  [mkmsg "unnecessarily-split-call" run_def_name_only].
Proof.
  destruct (call_rule_on_name_calls (at_line 1) "run" [AssignName (mkpos 1 8) "df"]
              [split_name_call] initial) as [_ H].
  - constructor; [|constructor].
    exists (mkpos 4 4), (mkpos 4 4), (mkpos 4 4), "f",
      [Name (mkpos 4 6) "a"; Name (mkpos 5 6) "b"], 2.
    split; reflexivity.
  - exact H.
Defined.

(** X25. On an expression statement whose value is no call the alias
    test reads [.func] of the value and raises [AttributeError]; both
    select checkers raise with it and add nothing. *)
Theorem select_rules_raise_off_calls :
  forall (p : position) (value : node) (s : checker_state),
    is_Call value = false ->
    select_contains_alias_call (Expr p value) = Raise AttributeError /\
    SelectAliasChecker.visit (Expr p value) s = (Raise AttributeError, s) /\
    SelectCastChecker.visit (Expr p value) s = (Raise AttributeError, s).
Proof.
  intros p value s Hcall.
  assert (H : select_contains_alias_call (Expr p value) = Raise AttributeError).
  { unfold select_contains_alias_call. cbn [getattr_value bind].
    destruct value; try discriminate Hcall; reflexivity. }
  split; [exact H|].
  cbn [SelectAliasChecker.visit SelectCastChecker.visit].
  unfold SelectAliasChecker.visit_expr, SelectCastChecker.visit_expr, cbind, lift.
  rewrite H. split; reflexivity.
Qed.

Lemma select_rules_raise_off_calls_witness :
  SelectAliasChecker.visit bare_name_stmt initial = (Raise AttributeError, initial).
Proof.
  destruct (select_rules_raise_off_calls (at_line 1) (Name (at_line 1) "x")
              initial eq_refl) as (_ & H & _).
  exact H.
Defined.

Lemma alias_test_unreadable (pre post : list node) (arg : node) :
  forallb readable_argument pre = true ->
  existsb (method_named "alias") pre = false ->
  readable_argument arg = false ->
  any_loop (fun arg =>
              if is_Call arg then
                f <- getattr_func arg ;;
                a <- getattr_attrname f ;;
                Ok (a =? "alias")
              else Ok false) (pre ++ arg :: post) = Raise AttributeError.
Proof.
  intros Hpre Hnone Harg.
  induction pre as [|x pre IH]; cbn [app any_loop].
  - destruct arg as [| | | | pc f a | | | | | | |]; try discriminate Harg.
    destruct f; try discriminate Harg; reflexivity.
  - cbn [forallb] in Hpre. apply andb_prop in Hpre as [Hx Hpre].
    cbn [existsb] in Hnone. apply orb_false_iff in Hnone as [Hxa Hnone].
    rewrite (IH Hpre Hnone).
    destruct x as [| | | | pc f a | | | | | | |]; cbn; try reflexivity.
    destruct f; try discriminate Hx. cbn in *. now rewrite Hxa.
Qed.

(** X26. On a [select] the alias test raises [AttributeError] when an
    argument that is a call of something without an [attrname] (a plain
    function call, say) comes before any [.alias] call: the alias calls
    that follow are never reached, and neither select checker reports
    the statement. *)
Theorem select_rules_raise_before_alias :
  forall (p pc pa : position) (receiver arg : node) (pre post : list node)
         (s : checker_state),
    forallb readable_argument pre = true ->
    existsb (method_named "alias") pre = false ->
    readable_argument arg = false ->
    let statement :=
      Expr p (Call pc (Attribute pa receiver "select") (pre ++ arg :: post)) in
    select_contains_alias_call statement = Raise AttributeError /\
    SelectAliasChecker.visit statement s = (Raise AttributeError, s) /\
    SelectCastChecker.visit statement s = (Raise AttributeError, s).
Proof.
  intros p pc pa receiver arg pre post s Hpre Hnone Harg statement.
  assert (H : select_contains_alias_call statement = Raise AttributeError).
  { subst statement. unfold select_contains_alias_call.
    cbn [getattr_value getattr_func bind hasattr getattr_attrname negb
         getattr_args iter].
    change ("select" =? "select") with true. cbn iota.
    now apply alias_test_unreadable. }
  split; [exact H|]. subst statement.
  cbn [SelectAliasChecker.visit SelectCastChecker.visit].
  unfold SelectAliasChecker.visit_expr, SelectCastChecker.visit_expr, cbind, lift.
  rewrite H. split; reflexivity.
Qed.

Lemma select_rules_raise_before_alias_witness :
  SelectAliasChecker.visit
    (Expr (at_line 1)
       (Call (at_line 1) (Attribute (at_line 1) (Name (at_line 1) "df") "select")
          ([Name (at_line 1) "a"]
           ++ Call (at_line 1) (Name (at_line 1) "f") [Name (at_line 1) "x"]
           :: [method_call 1 (Name (at_line 1) "col") "alias"
                 [Const (at_line 1) (CStr "y")]])))
    initial = (Raise AttributeError, initial).
Proof.
  destruct (select_rules_raise_before_alias (at_line 1) (at_line 1) (at_line 1)
              (Name (at_line 1) "df")
              (Call (at_line 1) (Name (at_line 1) "f") [Name (at_line 1) "x"])
              [Name (at_line 1) "a"]
              [method_call 1 (Name (at_line 1) "col") "alias"
                 [Const (at_line 1) (CStr "y")]]
              initial eq_refl eq_refl eq_refl) as (_ & H & _).
  exact H.
Defined.
